(** * Blogify: the JSON document store of [instagram_blog.py]

    A shallow embedding of the data layer of the Tkinter blog
    ([load_data], [create_default_data], [save_data]) and of the three
    handlers that change the document ([PostCard._toggle_like],
    [AddPostPopup._create_post], [CommentsPopup._add_comment]), with what
    the windows compute from the document: the two numbers of
    [ProfilePopup], the order of the cards in [refresh_feed] and the
    outline of a [RoundedButton].

    Python integers are [Z], Python [str] is [string], a Python list is a
    [list] (the liker "set" is a list in the code: [in], [remove] and
    [append] are the list operations).  A key the code reads with
    [.get(key, default)] or tests with [key not in post] is an [option]
    field; a key it reads with [post[key]] is a plain field.

    The store is written over any JSON library ([JsonLib]);
    [python_json] is the one of Python, with the text [json.dump] writes
    for a document and the value [json.load] reads from a text. *)

From Stdlib Require Import Decimal DecimalString DecimalZ DecimalN DecimalPos DecimalFacts.
From Stdlib Require Import ZArith List String Ascii Bool Lia Sorted Permutation.
From Stdlib Require OrderedTypeEx.
Import ListNotations.

Local Open Scope Z_scope.
Local Open Scope string_scope.
Local Open Scope list_scope.

(** ** The document *)

Module User.
Record t : Type := mk {
  user_id : Z;
  username : string;
  email : string;
  bio : string;
  created_at : string
}.
End User.

Module Comment.
Record t : Type := mk {
  user_id : Z;
  username : string;
  text : string;
  created_at : string
}.
End Comment.

Module Post.
Record t : Type := mk {
  post_id : Z;
  user_id : Z;
  username : string;
  content : string;
  image_path : option string;          (* None is Python's None *)
  likes : Z;
  liked_by : option (list Z);          (* None: the key is absent *)
  comments : option (list Comment.t);  (* None: the key is absent *)
  created_at : string
}.

(** [post.get('liked_by', [])] and [post.get('comments', [])]. *)
Definition get_liked_by (post : t) : list Z :=
  match liked_by post with Some l => l | None => [] end.

Definition get_comments (post : t) : list Comment.t :=
  match comments post with Some l => l | None => [] end.

(** Assignments [post['liked_by'] = ...], [post['likes'] = ...],
    [post['comments'] = ...]: every other key keeps its value. *)
Definition set_liked_by (l : list Z) (post : t) : t :=
  mk (post_id post) (user_id post) (username post) (content post)
     (image_path post) (likes post) (Some l) (comments post)
     (created_at post).

Definition set_likes (n : Z) (post : t) : t :=
  mk (post_id post) (user_id post) (username post) (content post)
     (image_path post) n (liked_by post) (comments post)
     (created_at post).

Definition set_comments (l : list Comment.t) (post : t) : t :=
  mk (post_id post) (user_id post) (username post) (content post)
     (image_path post) (likes post) (liked_by post) (Some l)
     (created_at post).
End Post.

Record Document : Type := mkDocument {
  current_user : User.t;
  posts : list Post.t;
  users : list User.t;
  notifications : list string   (* always [[]] in this program *)
}.

Definition set_posts (ps : list Post.t) (data : Document) : Document :=
  mkDocument (current_user data) ps (users data) (notifications data).

Definition post_ids (data : Document) : list Z :=
  map Post.post_id (posts data).

(** ** Python list and builtin operations used by the handlers *)

(** [x in l] on a list of integers. *)
Definition py_in (x : Z) (l : list Z) : bool := existsb (Z.eqb x) l.

(** [l.remove(x)]: drops the first occurrence.  (Python raises
    [ValueError] when there is none; the only call is guarded by
    [x in l].) *)
Fixpoint py_remove (x : Z) (l : list Z) : list Z :=
  match l with
  | [] => []
  | y :: l' => if Z.eqb y x then l' else y :: py_remove x l'
  end.

(** [max(l, default=d)]. *)
Definition py_max (l : list Z) (d : Z) : Z :=
  match l with
  | [] => d
  | x :: l' => fold_left Z.max l' x
  end.

(** The loop shared by [_toggle_like] and [_add_comment]:
<<
    for post in data['posts']:
        if post['post_id'] == post_id:
            ... change post in place ...
            break
>>
    Only the first post with the id is changed. *)
Fixpoint update_first (post_id : Z) (f : Post.t -> Post.t)
    (ps : list Post.t) : list Post.t :=
  match ps with
  | [] => []
  | post :: ps' =>
      if Z.eqb (Post.post_id post) post_id
      then f post :: ps'
      else post :: update_first post_id f ps'
  end.

(** The post the loop stops at, if any. *)
Fixpoint find_post (post_id : Z) (ps : list Post.t) : option Post.t :=
  match ps with
  | [] => None
  | post :: ps' =>
      if Z.eqb (Post.post_id post) post_id then Some post
      else find_post post_id ps'
  end.

(** ** The three mutations (the code between [load_data] and [save_data]) *)

(** Body of the loop in [PostCard._toggle_like]. *)
Definition toggle_post (user_id : Z) (post : Post.t) : Post.t :=
  if py_in user_id (Post.get_liked_by post)
  then
    let post1 := Post.set_liked_by (py_remove user_id (Post.get_liked_by post)) post in
    Post.set_likes (Z.max 0 (Post.likes post1 - 1)) post1
  else
    let post1 :=
      match Post.liked_by post with
      | None => Post.set_liked_by [] post
      | Some _ => post
      end in
    let post2 := Post.set_liked_by (Post.get_liked_by post1 ++ [user_id]) post1 in
    Post.set_likes (Post.likes post2 + 1) post2.

Definition toggle_like (data : Document) (post_id user_id : Z) : Document :=
  set_posts (update_first post_id (toggle_post user_id) (posts data)) data.

(** The dictionary built in [AddPostPopup._create_post]. *)
Definition new_post (data : Document) (user : User.t) (caption : string)
    (saved_image_path : option string) (now : string) : Post.t :=
  Post.mk (py_max (map Post.post_id (posts data)) 0 + 1)
          (User.user_id user) (User.username user) caption
          saved_image_path 0 (Some []) (Some []) now.

(** [data['posts'].insert(0, new_post)]. *)
Definition create_post (data : Document) (user : User.t) (caption : string)
    (saved_image_path : option string) (now : string) : Document :=
  set_posts (new_post data user caption saved_image_path now :: posts data) data.

(** Body of the loop in [CommentsPopup._add_comment]. *)
Definition append_comment (c : Comment.t) (post : Post.t) : Post.t :=
  let post1 :=
    match Post.comments post with
    | None => Post.set_comments [] post
    | Some _ => post
    end in
  Post.set_comments (Post.get_comments post1 ++ [c]) post1.

Definition add_comment (data : Document) (post_id : Z) (user : User.t)
    (comment_text now : string) : Document :=
  let new_comment :=
    Comment.mk (User.user_id user) (User.username user) comment_text now in
  set_posts (update_first post_id (append_comment new_comment) (posts data)) data.

(** ** The world the program runs in

    The handlers read and write one file ([DATA_FILE]), read the clock,
    print, and open message boxes.  A computation is a function from the
    world to an outcome (a value or a raised exception) and a new world. *)

Inductive exn : Type :=
  | Exception (message : string).

Definition str (e : exn) : string :=
  match e with Exception message => message end.

Inductive outcome (A : Type) : Type :=
  | Ok (a : A)
  | Raise (e : exn).
Arguments Ok {A} a.
Arguments Raise {A} e.

(** [json.dump(data, f, indent=2, ensure_ascii=False)] and [json.load(f)]
    belong to Python's library: they are taken as parameters
    ([python_json] below gives them as the library defines them).
    [json_dump data] is the text written for [data]; [json_load text] is
    the document read from [text], or the exception [json.load] raises.
    (A text that is JSON but not of the shape of a document has no
    counterpart here: the handlers fail on it with [KeyError] or
    [TypeError] when they index it.) *)
Class JsonLib : Type := {
  json_dump : Document -> string;
  json_load : string -> outcome Document
}.

(** What an attempt to write [DATA_FILE] runs into.  [open(DATA_FILE, 'w')]
    empties the file before anything is written, and [json.dump] then
    writes the text piece by piece: a failure to open leaves the file as
    it was, a failure while writing leaves the first [written] characters
    of the text. *)
Inductive write_fault : Type :=
  | NoFault
  | OpenFails (e : exn)
  | WriteFails (written : nat) (e : exn).

Inductive dialog : Type :=
  | showerror (title message : string)
  | showwarning (title message : string)
  | showinfo (title message : string).

Record World : Type := mkWorld {
  data_file : option string;   (* contents of DATA_FILE; None: no such file *)
  disk_fault : write_fault;    (* met by every write of DATA_FILE *)
  clock : nat -> string;       (* the n-th reading of datetime.now().isoformat() *)
  ticks : nat;                 (* readings of the clock so far *)
  stdout : list string;        (* lines printed, oldest first *)
  dialogs : list dialog        (* message boxes shown, oldest first *)
}.

Definition Py (A : Type) : Type := World -> outcome A * World.

Definition ret {A : Type} (a : A) : Py A := fun w => (Ok a, w).

Definition bind {A B : Type} (c : Py A) (k : A -> Py B) : Py B :=
  fun w =>
    match c w with
    | (Ok a, w') => k a w'
    | (Raise e, w') => (Raise e, w')
    end.

(** [try: c  except Exception as e: handler e]. *)
Definition try_except {A : Type} (c : Py A) (handler : exn -> Py A) : Py A :=
  fun w =>
    match c w with
    | (Ok a, w') => (Ok a, w')
    | (Raise e, w') => handler e w'
    end.

Definition lift {A : Type} (r : outcome A) : Py A := fun w => (r, w).

Declare Scope py_scope.
Delimit Scope py_scope with py.
Notation "x <- c ;; k" := (bind c (fun x => k))
  (at level 100, c at next level, right associativity) : py_scope.
Notation "c ;;; k" := (bind c (fun _ => k))
  (at level 100, right associativity) : py_scope.
Local Open Scope py_scope.

Definition result {A : Type} (r : outcome A * World) : outcome A := fst r.
Definition world_after {A : Type} (r : outcome A * World) : World := snd r.

(** *** Primitive effects *)

Definition set_data_file (f : option string) (w : World) : World :=
  mkWorld f (disk_fault w) (clock w) (ticks w) (stdout w) (dialogs w).

(** [os.path.exists(DATA_FILE)]. *)
Definition os_path_exists : Py bool :=
  fun w => (Ok (match data_file w with Some _ => true | None => false end), w).

(** [with open(DATA_FILE, 'r', encoding='utf-8') as f: f.read()]. *)
Definition read_text : Py string :=
  fun w =>
    match data_file w with
    | Some text => (Ok text, w)
    | None => (Raise (Exception "No such file or directory"), w)
    end.

(** The first [n] characters of [s]. *)
Definition prefix (n : nat) (s : string) : string := substring 0 n s.

(** [with open(DATA_FILE, 'w', encoding='utf-8') as f: f.write(text)]. *)
Definition write_text (text : string) : Py unit :=
  fun w =>
    match disk_fault w with
    | NoFault => (Ok tt, set_data_file (Some text) w)
    | OpenFails e => (Raise e, w)
    | WriteFails written e => (Raise e, set_data_file (Some (prefix written text)) w)
    end.

(** [datetime.now().isoformat()]. *)
Definition datetime_now_isoformat : Py string :=
  fun w =>
    (Ok (clock w (ticks w)),
     mkWorld (data_file w) (disk_fault w) (clock w) (S (ticks w)) (stdout w) (dialogs w)).

Definition print (line : string) : Py unit :=
  fun w =>
    (Ok tt,
     mkWorld (data_file w) (disk_fault w) (clock w) (ticks w) (stdout w ++ [line]) (dialogs w)).

Definition messagebox (d : dialog) : Py unit :=
  fun w =>
    (Ok tt,
     mkWorld (data_file w) (disk_fault w) (clock w) (ticks w) (stdout w) (dialogs w ++ [d])).

(** ** Data management *)

(** The dictionary literal of [create_default_data], with the eight
    readings of the clock in the order the literal is evaluated. *)
Definition default_data (t1 t2 t3 t4 t5 t6 t7 t8 : string) : Document :=
  mkDocument
    (User.mk 1 "harini" "harini@example.com"
       "Welcome to my blog! ✨ Sharing moments and thoughts." t1)
    [ Post.mk 1 1 "harini"
        "Beautiful sunset at the beach! 🌅 #sunset #beach #nature"
        None 42 (Some [])
        (Some [ Comment.mk 2 "friend1" "Amazing shot!" t2;
                Comment.mk 3 "friend2" "Love this! ❤️" t3 ])
        t4;
      Post.mk 2 1 "harini"
        "Coffee and coding ☕💻 Perfect morning vibes!"
        None 28 (Some [])
        (Some [ Comment.mk 2 "friend1" "Same here!" t5 ])
        t6;
      Post.mk 3 1 "harini"
        "New project coming soon! Stay tuned 🚀 #coding #project"
        None 35 (Some [])
        (Some [])
        t7 ]
    [ User.mk 1 "harini" "harini@example.com"
        "Welcome to my blog! ✨ Sharing moments and thoughts." t8 ]
    [].

Definition save_data {json : JsonLib} (data : Document) : Py unit :=
  try_except
    (write_text (json_dump data))
    (fun e => messagebox (showerror "Error" ("Failed to save data: " ++ str e))).

Definition create_default_data {json : JsonLib} : Py Document :=
  t1 <- datetime_now_isoformat ;;
  t2 <- datetime_now_isoformat ;;
  t3 <- datetime_now_isoformat ;;
  t4 <- datetime_now_isoformat ;;
  t5 <- datetime_now_isoformat ;;
  t6 <- datetime_now_isoformat ;;
  t7 <- datetime_now_isoformat ;;
  t8 <- datetime_now_isoformat ;;
  let default := default_data t1 t2 t3 t4 t5 t6 t7 t8 in
  save_data default ;;;
  ret default.

Definition load_data {json : JsonLib} : Py Document :=
  exists_ <- os_path_exists ;;
  if exists_ : bool then
    try_except
      (text <- read_text ;; lift (json_load text))
      (fun e =>
         print ("Error loading data: " ++ str e) ;;;
         create_default_data)
  else
    create_default_data.

(** The seeded document as [create_default_data] makes it in world [w]:
    the eight times are the next eight readings of the clock. *)
Definition default_data_at (w : World) : Document :=
  let t (i : nat) := clock w (i + ticks w)%nat in
  default_data (t 0%nat) (t 1%nat) (t 2%nat) (t 3%nat)
               (t 4%nat) (t 5%nat) (t 6%nat) (t 7%nat).

(** The file a call of [save_data] leaves behind. *)
Definition file_after_save {json : JsonLib} (data : Document) (w : World)
    : option string :=
  match disk_fault w with
  | NoFault => Some (json_dump data)
  | OpenFails _ => data_file w
  | WriteFails written _ => Some (prefix written (json_dump data))
  end.

(** The message boxes a call of [save_data] opens. *)
Definition dialogs_of_save (w : World) : list dialog :=
  match disk_fault w with
  | NoFault => []
  | OpenFails e | WriteFails _ e =>
      [showerror "Error" ("Failed to save data: " ++ str e)]
  end.

(** ** The handlers

    Widgets are not modelled: a handler takes what it reads from its
    widgets as arguments, and [InstagramBlogApp.refresh_feed] is reduced
    to its [self.data = load_data()]. *)

Definition refresh_feed {json : JsonLib} : Py unit :=
  _ <- load_data ;; ret tt.

Module PostCard.
(** [self_post_id] is [self.post_data['post_id']]. *)
Definition _toggle_like {json : JsonLib} (self_post_id : Z) : Py unit :=
  data <- load_data ;;
  let post_id := self_post_id in
  let user_id := User.user_id (current_user data) in
  save_data (toggle_like data post_id user_id) ;;;
  refresh_feed.
End PostCard.

Module CommentsPopup.
(** [comment_text] is the stripped text of the entry widget.  The
    comment, and with it the reading of the clock, is only made when
    the loop reaches a post with the id. *)
Definition _add_comment {json : JsonLib} (self_post_id : Z)
    (comment_text : string) : Py unit :=
  if String.eqb comment_text "" then
    messagebox (showwarning "Warning" "Please enter a comment!")
  else
    data <- load_data ;;
    let user := current_user data in
    let post_id := self_post_id in
    data' <- match find_post post_id (posts data) with
             | Some _ =>
                 now <- datetime_now_isoformat ;;
                 ret (add_comment data post_id user comment_text now)
             | None => ret data
             end ;;
    save_data data' ;;;
    messagebox (showinfo "Success" "Comment added!") ;;;
    refresh_feed.
End CommentsPopup.

Module AddPostPopup.
(** [caption] is the stripped text of the caption widget.
    [saved_image] stands for the block that copies the chosen image
    into [IMAGES_DIR] with PIL: [None] when no image was chosen
    ([self.image_path] is [None]), [Some (Ok path)] when the copy was
    saved under [path], [Some (Raise e)] when PIL raised [e].  The block
    reads the clock once, for the name of the copy. *)
Definition _create_post {json : JsonLib} (caption : string)
    (saved_image : option (outcome string)) : Py unit :=
  if String.eqb caption "" then
    messagebox (showwarning "Warning" "Please enter a caption!")
  else
    data <- load_data ;;
    let user := current_user data in
    match saved_image with
    | None =>
        now <- datetime_now_isoformat ;;
        save_data (create_post data user caption None now) ;;;
        messagebox (showinfo "Success" "Post created successfully!") ;;;
        refresh_feed
    | Some copied =>
        _ <- datetime_now_isoformat ;;
        match copied with
        | Raise e =>
            messagebox (showerror "Error" ("Failed to save image: " ++ str e))
        | Ok path =>
            now <- datetime_now_isoformat ;;
            save_data (create_post data user caption (Some path) now) ;;;
            messagebox (showinfo "Success" "Post created successfully!") ;;;
            refresh_feed
        end
    end.
End AddPostPopup.

(** The id [new_post] computes: [max([p['post_id'] for p in data['posts']],
    default=0) + 1]. *)
Definition fresh_id (data : Document) : Z :=
  py_max (map Post.post_id (posts data)) 0 + 1.

(** ** Repeated calls *)

(** What one call of [_create_post] supplies besides the document. *)
Record post_input : Type := mkPostInput {
  in_user : User.t;
  in_caption : string;
  in_image : option string;
  in_now : string
}.

Definition create_posts (data : Document) (calls : list post_input) : Document :=
  fold_left
    (fun d c => create_post d (in_user c) (in_caption c) (in_image c) (in_now c))
    calls data.

(** The ids given out by [calls], in the order of the calls. *)
Fixpoint allocated_ids (data : Document) (calls : list post_input) : list Z :=
  match calls with
  | [] => []
  | c :: calls' =>
      Post.post_id (new_post data (in_user c) (in_caption c) (in_image c) (in_now c))
      :: allocated_ids
           (create_post data (in_user c) (in_caption c) (in_image c) (in_now c))
           calls'
  end.

Record comment_input : Type := mkCommentInput {
  by_user : User.t;
  with_text : string;
  at_time : string
}.

Definition comment_of (c : comment_input) : Comment.t :=
  Comment.mk (User.user_id (by_user c)) (User.username (by_user c))
             (with_text c) (at_time c).

Definition add_comments (data : Document) (post_id : Z)
    (calls : list comment_input) : Document :=
  fold_left
    (fun d c => add_comment d post_id (by_user c) (with_text c) (at_time c))
    calls data.

(** ** Properties of documents *)

(** By how much the stored count exceeds the number of likers. *)
Definition surplus (post : Post.t) : Z :=
  Post.likes post - Z.of_nat (List.length (Post.get_liked_by post)).

(** [likes == len(liked_by)] on every post. *)
Definition likes_consistent (data : Document) : Prop :=
  Forall (fun post => Post.likes post = Z.of_nat (List.length (Post.get_liked_by post)))
         (posts data).

(** [likes == len(liked_by)] on one post. *)
Definition likes_match (post : Post.t) : Prop :=
  Post.likes post = Z.of_nat (List.length (Post.get_liked_by post)).

(** Two posts that differ at most in the like count and the likers. *)
Definition same_but_likes (p q : Post.t) : Prop :=
  Post.post_id q = Post.post_id p /\
  Post.user_id q = Post.user_id p /\
  Post.username q = Post.username p /\
  Post.content q = Post.content p /\
  Post.image_path q = Post.image_path p /\
  Post.comments q = Post.comments p /\
  Post.created_at q = Post.created_at p.

(** Two posts that differ at most in the comments. *)
Definition same_but_comments (p q : Post.t) : Prop :=
  Post.post_id q = Post.post_id p /\
  Post.user_id q = Post.user_id p /\
  Post.username q = Post.username p /\
  Post.content q = Post.content p /\
  Post.image_path q = Post.image_path p /\
  Post.likes q = Post.likes p /\
  Post.liked_by q = Post.liked_by p /\
  Post.created_at q = Post.created_at p.

(** Two documents that differ at most in the posts. *)
Definition same_but_posts (d e : Document) : Prop :=
  current_user e = current_user d /\
  users e = users d /\
  notifications e = notifications d.

(** [post] is the post the loop over [ps] stops at for [post_id]: the
    first one with that id. *)
Definition first_with_id (post_id : Z) (ps before : list Post.t)
    (post : Post.t) (after : list Post.t) : Prop :=
  ps = before ++ post :: after /\
  Forall (fun q => Post.post_id q <> post_id) before /\
  Post.post_id post = post_id.

Definition no_post_with_id (post_id : Z) (ps : list Post.t) : Prop :=
  Forall (fun q => Post.post_id q <> post_id) ps.

(** What the handlers keep true of each post, for the current user
    [user_id]: the only liker is that user, at most once, and the count
    is not below the number of likers. *)
Definition tidy_post (user_id : Z) (post : Post.t) : Prop :=
  (Post.liked_by post = Some [] \/ Post.liked_by post = Some [user_id]) /\
  0 <= surplus post.

(** Documents the handlers can produce from the seeded one. *)
Inductive reachable : Document -> Prop :=
  | reach_default t1 t2 t3 t4 t5 t6 t7 t8 :
      reachable (default_data t1 t2 t3 t4 t5 t6 t7 t8)
  | reach_toggle_like data post_id :
      reachable data ->
      reachable (toggle_like data post_id (User.user_id (current_user data)))
  | reach_create_post data caption image now :
      reachable data ->
      reachable (create_post data (current_user data) caption image now)
  | reach_add_comment data post_id comment_text now :
      reachable data ->
      reachable (add_comment data post_id (current_user data) comment_text now).

(** ** Sample values *)

Definition alice : User.t :=
  User.mk 5 "alice" "alice@example.com" "hello" "2024-01-01T00:00:00".

Definition sample_post (post_id likes : Z) (liked_by : list Z) : Post.t :=
  Post.mk post_id 1 "harini" "hello" None likes (Some liked_by) (Some [])
          "2024-01-01T00:00:00".

Definition sample_document (ps : list Post.t) : Document :=
  mkDocument alice ps [alice] [].

Definition seeded : Document :=
  default_data "t1" "t2" "t3" "t4" "t5" "t6" "t7" "t8".

(** A stand-in for the JSON library that knows the text of one document. *)
Definition sample_json (known : Document) : JsonLib := {|
  json_dump := fun _ => "{...}";
  json_load := fun text =>
    if String.eqb text "{...}" then Ok known
    else Raise (Exception "Expecting value: line 1 column 1 (char 0)")
|}.

Definition sample_world (file : option string) (fault : write_fault) : World :=
  mkWorld file fault (fun _ => "2024-01-01T00:00:00") 0 [] [].

(** ** What the windows compute from the document *)

(** [sum(l)] on a list of integers. *)
Definition py_sum (l : list Z) : Z := fold_left Z.add l 0.

Module ProfilePopup.
(** The posts of the current user, as both comprehensions of
    [_create_ui] select them: [p['user_id'] == user['user_id']]. *)
Definition own_posts (data : Document) : list Post.t :=
  filter (fun p => Z.eqb (Post.user_id p) (User.user_id (current_user data)))
         (posts data).

(** [len([p for p in data['posts'] if ...])]. *)
Definition post_count (data : Document) : nat := List.length (own_posts data).

(** [sum([p['likes'] for p in data['posts'] if ...])]. *)
Definition total_likes (data : Document) : Z :=
  py_sum (map Post.likes (own_posts data)).
End ProfilePopup.

(** [sorted(posts, key=lambda x: x.get('created_at', ''), reverse=True)]
    in [refresh_feed].  Python's [sorted] is stable, also with
    [reverse=True]: posts with the same time keep the order they have in
    the list.  A stable sort has one possible result, which this insertion
    sort computes: [post], which stood before all of [sorted_], goes in
    front of the first post that is not strictly newer than it.  Strings
    are compared as Python compares [str] (by code point, which on UTF-8
    text is the order of the bytes).  The default [''] of [.get] is never
    used here: every post of a [Document] has its [created_at]. *)
Fixpoint insert_newest_first (post : Post.t) (sorted_ : list Post.t)
    : list Post.t :=
  match sorted_ with
  | [] => [post]
  | q :: rest =>
      if String.ltb (Post.created_at post) (Post.created_at q)
      then q :: insert_newest_first post rest
      else post :: q :: rest
  end.

Definition sorted_newest_first (ps : list Post.t) : list Post.t :=
  fold_right insert_newest_first [] ps.

(** The posts for which [refresh_feed] makes a [PostCard], in the order
    of the cards ([[]]: the label "No posts yet" is shown instead). *)
Definition feed (data : Document) : list Post.t :=
  sorted_newest_first (posts data).

Module RoundedButton.
(** The coordinate list [create_rounded_rect] hands to
    [create_polygon]: twelve points, each extended as [x, y]. *)
Definition rounded_rect_points (x1 y1 x2 y2 radius : Z) : list (Z * Z) :=
  [ (x1 + radius, y1); (x2 - radius, y1); (x2, y1); (x2, y1 + radius);
    (x2, y2 - radius); (x2, y2); (x2 - radius, y2); (x1 + radius, y2);
    (x1, y2); (x1, y2 - radius); (x1, y1 + radius); (x1, y1) ].

Definition create_rounded_rect (x1 y1 x2 y2 radius : Z) : list Z :=
  fold_left (fun points xy => points ++ [fst xy; snd xy])
            (rounded_rect_points x1 y1 x2 y2 radius) [].

(** The call in [__init__]:
    [create_rounded_rect(5, 5, width-5, height-5, radius=15)]. *)
Definition outline (width height : Z) : list Z :=
  create_rounded_rect 5 5 (width - 5) (height - 5) 15.
End RoundedButton.

(** [p] may stand before [q] in the feed: [q] is not newer than [p]. *)
Definition not_older (p q : Post.t) : Prop :=
  String.leb (Post.created_at q) (Post.created_at p) = true.

(** ** More sample values *)

(** A number that every mutation of the handlers changes: posts, likes
    and comments counted together. *)
Definition weight (data : Document) : Z :=
  Z.of_nat (List.length (posts data))
  + py_sum (map Post.likes (posts data))
  + Z.of_nat (List.length (flat_map Post.get_comments (posts data))).

(** A stand-in for the JSON library that knows the texts of two
    documents of different weight. *)
Definition sample_json2 (before after : Document) : JsonLib := {|
  json_dump := fun data =>
    if Z.eqb (weight data) (weight after) then "{after}" else "{before}";
  json_load := fun text =>
    if String.eqb text "{after}" then Ok after
    else if String.eqb text "{before}" then Ok before
    else Raise (Exception "Expecting value: line 1 column 1 (char 0)")
|}.

(** ** Python's [json] module

    [save_data] calls [json.dump(data, f, indent=2, ensure_ascii=False)]
    and [load_data] calls [json.load(f)], both on a file opened with
    [encoding='utf-8'].  This part gives the text the first writes and
    the value the second reads, as CPython's library defines them.

    A [string] holds the bytes of the UTF-8 form of a Python [str]; a
    lone surrogate, which [json.load] accepts in an escape, is held as
    the three bytes of its generalised form (a [str] with one cannot be
    written to the file).  A number with a fraction or an exponent is
    read, as are [NaN] and the infinities, and kept as its text: no
    document has one.  The text is that of a system whose line separator
    is the line feed. *)

#[warnings="-register-all"]
Inductive json_value : Type :=
  | JNull
  | JBool (b : bool)
  | JInt (n : Z)
  | JFloat (literal : string)
  | JStr (s : string)
  | JArr (items : list json_value)
  | JObj (members : list (string * json_value)).

Definition dquote : ascii := "034"%char.
Definition backslash : ascii := "092"%char.
Definition newline : ascii := "010"%char.

(** *** Writing: [json.dumps(v, indent=2, ensure_ascii=False)] *)

(** [ESCAPE_DCT] of [json.encoder]: the quote, the backslash and the
    characters below the space are escaped, everything else is written
    as it is. *)
Definition hex_char (n : N) : ascii :=
  match n with
  | 0 => "0" | 1 => "1" | 2 => "2" | 3 => "3" | 4 => "4" | 5 => "5" | 6 => "6"
  | 7 => "7" | 8 => "8" | 9 => "9" | 10 => "a" | 11 => "b" | 12 => "c"
  | 13 => "d" | 14 => "e" | _ => "f"
  end%N%char.

Definition escape_char (c : ascii) : string :=
  if Ascii.eqb c dquote then String backslash (String dquote "")
  else if Ascii.eqb c backslash then String backslash (String backslash "")
  else if Ascii.eqb c "010" then String backslash "n"
  else if Ascii.eqb c "013" then String backslash "r"
  else if Ascii.eqb c "009" then String backslash "t"
  else if Ascii.eqb c "008" then String backslash "b"
  else if Ascii.eqb c "012" then String backslash "f"
  else if (N_of_ascii c <? 32)%N then
    String backslash
      (String "u" (String "0" (String "0"
         (String (hex_char (N_of_ascii c / 16)%N)
            (String (hex_char (N_of_ascii c mod 16)%N) "")))))
  else String c "".

(** [escape_to s k], [quote_to s k], ...: the text of [s] in front of the
    text [k] that follows it. *)
Fixpoint escape_to (s k : string) : string :=
  match s with
  | "" => k
  | String c s' => escape_char c ++ escape_to s' k
  end.

Definition quote_to (s k : string) : string :=
  String dquote (escape_to s (String dquote k)).

(** [int.__repr__]. *)
Definition print_int (n : Z) : string := NilEmpty.string_of_int (Z.to_int n).

Fixpoint spaces (n : nat) (k : string) : string :=
  match n with O => k | S n' => String " " (spaces n' k) end.

Definition newline_indent (level : nat) (k : string) : string :=
  String newline (spaces (2 * level) k).

(** What follows the first item of a list or dictionary: each further
    item after [","] and a new line, then the closing bracket on a line
    of its own. *)
Section Items.
Context {A : Type} (item_to : A -> string -> string).

Fixpoint more_to (level : nat) (close : ascii) (l : list A) (k : string)
    : string :=
  match l with
  | [] => newline_indent level (String close k)
  | y :: l' =>
      String "," (newline_indent (S level)
                    (item_to y (more_to level close l' k)))
  end.
End Items.

(** [_iterencode] with [indent=2]: the items of a list or dictionary
    that is not empty stand on lines of their own, two spaces deeper
    than the brackets, with [","] between items and [": "] after a key.
    (A float is written as the text it was read from; the program writes
    none.) *)
Fixpoint dump_to (level : nat) (v : json_value) (k : string) {struct v} : string :=
  match v with
  | JNull => "null" ++ k
  | JBool true => "true" ++ k
  | JBool false => "false" ++ k
  | JInt n => print_int n ++ k
  | JFloat literal => literal ++ k
  | JStr s => quote_to s k
  | JArr [] => "[]" ++ k
  | JArr (x :: xs) =>
      String "["
        (newline_indent (S level)
           (dump_to (S level) x
              (more_to (dump_to (S level)) level "]" xs k)))
  | JObj [] => "{}" ++ k
  | JObj (m :: ms) =>
      let member_to (m : string * json_value) (k : string) :=
        quote_to (fst m) (String ":" (String " " (dump_to (S level) (snd m) k))) in
      String "{"
        (newline_indent (S level)
           (member_to m (more_to member_to level "}" ms k)))
  end.

Definition dumps (v : json_value) : string := dump_to 0 v "".


(** *** Well-formed UTF-8 *)
(** What the decoder of [open(..., encoding='utf-8')] accepts: no
    overlong form, no surrogate, nothing above U+10FFFF. *)
Inductive utf8_state : Type :=
  | Start                      (* between two characters *)
  | Tail1 | Tail2 | Tail3      (* so many continuation bytes to come *)
  | AfterE0 | AfterED | AfterF0 | AfterF4.  (* the next byte is restricted *)

Definition within (lo hi n : N) : bool := ((lo <=? n) && (n <=? hi))%N.

Definition utf8_step (st : utf8_state) (c : ascii) : option utf8_state :=
  let n := N_of_ascii c in
  match st with
  | Start =>
      if (n <? 128)%N then Some Start
      else if within 194 223 n then Some Tail1
      else if (n =? 224)%N then Some AfterE0
      else if (n =? 237)%N then Some AfterED
      else if within 225 239 n then Some Tail2
      else if (n =? 240)%N then Some AfterF0
      else if within 241 243 n then Some Tail3
      else if (n =? 244)%N then Some AfterF4
      else None
  | Tail1 => if within 128 191 n then Some Start else None
  | Tail2 => if within 128 191 n then Some Tail1 else None
  | Tail3 => if within 128 191 n then Some Tail2 else None
  | AfterE0 => if within 160 191 n then Some Tail1 else None
  | AfterED => if within 128 159 n then Some Tail1 else None
  | AfterF0 => if within 144 191 n then Some Tail2 else None
  | AfterF4 => if within 128 143 n then Some Tail2 else None
  end.

Fixpoint utf8_run (st : utf8_state) (s : string) : option utf8_state :=
  match s with
  | "" => Some st
  | String c r =>
      match utf8_step st c with
      | Some st' => utf8_run st' r
      | None => None
      end
  end.

Definition utf8 (s : string) : bool :=
  match utf8_run Start s with
  | Some Start => true
  | _ => false
  end.


(** *** Reading: the tokens of a text *)
(** [json.loads] is modelled in two passes: the text is cut into tokens
    ([scan]), and the tokens are read as a value ([parse_value]).  A
    number or word is the longest run of the characters that occur in
    numbers and words; it must be a whole literal, as it is wherever
    Python accepts one, since a value is followed by a blank, a comma, a
    closing bracket or the end of the text. *)
Inductive token : Type :=
  | TLBrace | TRBrace | TLBracket | TRBracket | TColon | TComma
  | TStr (s : string)
  | TInt (n : Z)
  | TFloat (literal : string)
  | TBool (b : bool)
  | TNull.

(** Characters of numbers and of the words [true], [false], [null]. *)
Definition atom_char (c : ascii) : bool :=
  let n := N_of_ascii c in
  ((48 <=? n)%N && (n <=? 57)%N)      (* 0-9 *)
  || ((65 <=? n)%N && (n <=? 90)%N)   (* A-Z *)
  || ((97 <=? n)%N && (n <=? 122)%N)  (* a-z *)
  || (n =? 43)%N || (n =? 45)%N || (n =? 46)%N.  (* + - . *)

(** No leading zero. *)
Definition canonical (d : uint) : bool :=
  match d with
  | Nil => false
  | D0 Nil => true
  | D0 _ => false
  | _ => true
  end.

(** CPython's default limit on the digits of an integer it converts
    from or to text ([sys.int_info.default_max_str_digits]). *)
Definition max_str_digits : nat := 4300.

Definition fits (d : uint) : bool := Nat.leb (nb_digits d) max_str_digits.

(** The digits a text starts with, and what follows them. *)
Fixpoint span_digits (s : string) : string * string :=
  match s with
  | String c r =>
      if (48 <=? N_of_ascii c)%N && (N_of_ascii c <=? 57)%N
      then let (d, r') := span_digits r in (String c d, r')
      else ("", s)
  | "" => ("", "")
  end.

Definition strip_minus (s : string) : string :=
  match s with
  | String c r => if Ascii.eqb c "-" then r else s
  | "" => s
  end.

Definition strip_sign (s : string) : string :=
  match s with
  | String c r => if Ascii.eqb c "-" || Ascii.eqb c "+" then r else s
  | "" => s
  end.

(** [e] or [E], an optional sign and at least one digit, up to the end. *)
Definition is_exponent (s : string) : bool :=
  match s with
  | String c r =>
      (Ascii.eqb c "e" || Ascii.eqb c "E")
      && match span_digits (strip_sign r) with
         | (String _ _, "") => true
         | _ => false
         end
  | "" => false
  end.

(** A number with a fraction or an exponent: an optional minus sign, a
    whole part without a leading zero, then a point and digits, or an
    exponent, or both. *)
Definition is_float (text : string) : bool :=
  match span_digits (strip_minus text) with
  | (whole, rest) =>
      match NilEmpty.uint_of_string whole with
      | Some d =>
          canonical d
          && match rest with
             | String c r =>
                 if Ascii.eqb c "." then
                   match span_digits r with
                   | (String _ _, "") => true
                   | (String _ _, rest') => is_exponent rest'
                   | _ => false
                   end
                 else is_exponent rest
             | "" => false
             end
      | None => false
      end
  end.

Definition classify (text : string) : option token :=
  if String.eqb text "true" then Some (TBool true)
  else if String.eqb text "false" then Some (TBool false)
  else if String.eqb text "null" then Some TNull
  else if String.eqb text "NaN" || String.eqb text "Infinity"
          || String.eqb text "-Infinity" then Some (TFloat text)
  else
    match NilEmpty.int_of_string text with
    | Some (Pos d) =>
        if canonical d && fits d then Some (TInt (Z.of_int (Pos d))) else None
    | Some (Neg d) =>
        if canonical d && fits d then Some (TInt (Z.of_int (Neg d))) else None
    | None => if is_float text then Some (TFloat text) else None
    end.

(** The characters that are neither of a number nor of a word: the four
    blanks of JSON, the six punctuation marks, the quote; any other
    character outside a string makes the text invalid. *)
Inductive delimiter : Type :=
  | Blank
  | Punct (t : token)
  | Quote
  | Other.

Definition delimiter_of (c : ascii) : delimiter :=
  if Ascii.eqb c " " || Ascii.eqb c "010" || Ascii.eqb c "013" || Ascii.eqb c "009"
  then Blank
  else if Ascii.eqb c "{" then Punct TLBrace
  else if Ascii.eqb c "}" then Punct TRBrace
  else if Ascii.eqb c "[" then Punct TLBracket
  else if Ascii.eqb c "]" then Punct TRBracket
  else if Ascii.eqb c ":" then Punct TColon
  else if Ascii.eqb c "," then Punct TComma
  else if Ascii.eqb c dquote then Quote
  else Other.

(** The four hexadecimal digits of a [\u] escape. *)
Definition hex_value (c : ascii) : option N :=
  let n := N_of_ascii c in
  if (48 <=? n)%N && (n <=? 57)%N then Some (n - 48)%N
  else if (97 <=? n)%N && (n <=? 102)%N then Some (n - 87)%N
  else if (65 <=? n)%N && (n <=? 70)%N then Some (n - 55)%N
  else None.

Definition hex4 (a b c d : ascii) : option N :=
  match hex_value a, hex_value b, hex_value c, hex_value d with
  | Some x, Some y, Some z, Some w =>
      Some (((x * 16 + y) * 16 + z) * 16 + w)%N
  | _, _, _, _ => None
  end.

Definition byte (n : N) : ascii := ascii_of_N n.

(** The UTF-8 bytes of a code point, in front of [k]. *)
Definition utf8_to (n : N) (k : string) : string :=
  (if n <? 128 then String (byte n) k
   else if n <? 2048 then
     String (byte (192 + n / 64)) (String (byte (128 + n mod 64)) k)
   else if n <? 65536 then
     String (byte (224 + n / 4096))
       (String (byte (128 + (n / 64) mod 64)) (String (byte (128 + n mod 64)) k))
   else
     String (byte (240 + n / 262144))
       (String (byte (128 + (n / 4096) mod 64))
          (String (byte (128 + (n / 64) mod 64))
             (String (byte (128 + n mod 64)) k))))%N.

(** Surrogates: an escaped high one directly followed by an escaped low
    one stands for one character beyond the basic plane. *)
Definition is_high (n : N) : bool := ((55296 <=? n) && (n <=? 56319))%N.
Definition is_low (n : N) : bool := ((56320 <=? n) && (n <=? 57343))%N.
Definition pair_code (n m : N) : N :=
  (65536 + (n - 55296) * 1024 + (m - 56320))%N.

Definition simple_escape (c : ascii) : option ascii :=
  if Ascii.eqb c dquote then Some dquote
  else if Ascii.eqb c backslash then Some backslash
  else if Ascii.eqb c "/" then Some "/"%char
  else if Ascii.eqb c "b" then Some "008"%char
  else if Ascii.eqb c "f" then Some "012"%char
  else if Ascii.eqb c "n" then Some "010"%char
  else if Ascii.eqb c "r" then Some "013"%char
  else if Ascii.eqb c "t" then Some "009"%char
  else None.

Definition map_text (f : string -> string) (r : option (string * list token))
    : option (string * list token) :=
  match r with
  | Some (text, toks) => Some (f text, toks)
  | None => None
  end.

Definition no_text (r : option (list token)) : option (string * list token) :=
  match r with
  | Some toks => Some ("", toks)
  | None => None
  end.

Definition emit (t : token) (r : option (list token)) : option (list token) :=
  match r with
  | Some toks => Some (t :: toks)
  | None => None
  end.

Definition emit_string (r : option (string * list token)) : option (list token) :=
  match r with
  | Some (text, toks) => Some (TStr text :: toks)
  | None => None
  end.

Definition emit_atom (c : ascii) (r : option (string * list token))
    : option (list token) :=
  match r with
  | Some (text, toks) =>
      match classify (String c text) with
      | Some t => Some (t :: toks)
      | None => None
      end
  | None => None
  end.

(** [scan] between tokens, [scan_atom] inside a number or word (it
    returns the rest of the word), [scan_string] inside a string (it
    returns the rest of the string, unescaped).  As [py_scanstring] in
    strict mode: a character below the space must be escaped, the
    escapes are those of [simple_escape] and [\u] with four hexadecimal
    digits. *)
Fixpoint scan (s : string) : option (list token) :=
  match s with
  | "" => Some []
  | String c r =>
      if atom_char c then emit_atom c (scan_atom r)
      else
        match delimiter_of c with
        | Blank => scan r
        | Punct t => emit t (scan r)
        | Quote => emit_string (scan_string r)
        | Other => None
        end
  end
with scan_atom (s : string) : option (string * list token) :=
  match s with
  | "" => Some ("", [])
  | String c r =>
      if atom_char c then map_text (String c) (scan_atom r)
      else
        no_text
          match delimiter_of c with
          | Blank => scan r
          | Punct t => emit t (scan r)
          | Quote => emit_string (scan_string r)
          | Other => None
          end
  end
with scan_string (s : string) : option (string * list token) :=
  match s with
  | "" => None
  | String c r =>
      if Ascii.eqb c dquote then no_text (scan r)
      else if Ascii.eqb c backslash then
        match r with
        | "" => None
        | String e r1 =>
            match simple_escape e with
            | Some c' => map_text (String c') (scan_string r1)
            | None =>
                if Ascii.eqb e "u" then
                  match r1 with
                  | String h1 (String h2 (String h3 (String h4 r2))) =>
                      match hex4 h1 h2 h3 h4 with
                      | None => None
                      | Some n =>
                          if is_high n then
                            match r2 with
                            | String b1 (String u1 (String l1 (String l2
                                (String l3 (String l4 r3))))) =>
                                match hex4 l1 l2 l3 l4 with
                                | Some m =>
                                    if Ascii.eqb b1 backslash
                                       && Ascii.eqb u1 "u" && is_low m
                                    then
                                      map_text (utf8_to (pair_code n m))
                                        (scan_string r3)
                                    else
                                      map_text (utf8_to n) (scan_string r2)
                                | None =>
                                    map_text (utf8_to n) (scan_string r2)
                                end
                            | _ => map_text (utf8_to n) (scan_string r2)
                            end
                          else map_text (utf8_to n) (scan_string r2)
                      end
                  | _ => None
                  end
                else None
            end
        end
      else if (N_of_ascii c <? 32)%N then None
      else map_text (String c) (scan_string r)
  end.


(** *** Reading: the value of the tokens *)
(** The grammar of values; [fuel] bounds the tokens read ([loads] gives
    as much as there are tokens).  No comma is allowed after the last
    item, and a key must be a string. *)
Fixpoint parse_value (fuel : nat) (ts : list token)
    : option (json_value * list token) :=
  match fuel with
  | O => None
  | S fuel' =>
      match ts with
      | TNull :: r => Some (JNull, r)
      | TBool b :: r => Some (JBool b, r)
      | TInt n :: r => Some (JInt n, r)
      | TFloat literal :: r => Some (JFloat literal, r)
      | TStr s :: r => Some (JStr s, r)
      | TLBracket :: TRBracket :: r => Some (JArr [], r)
      | TLBracket :: r =>
          match parse_elements fuel' r with
          | Some (items, r') => Some (JArr items, r')
          | None => None
          end
      | TLBrace :: TRBrace :: r => Some (JObj [], r)
      | TLBrace :: r =>
          match parse_members fuel' r with
          | Some (members, r') => Some (JObj members, r')
          | None => None
          end
      | _ => None
      end
  end
with parse_elements (fuel : nat) (ts : list token)
    : option (list json_value * list token) :=
  match fuel with
  | O => None
  | S fuel' =>
      match parse_value fuel' ts with
      | Some (x, TComma :: r) =>
          match parse_elements fuel' r with
          | Some (items, r') => Some (x :: items, r')
          | None => None
          end
      | Some (x, TRBracket :: r) => Some ([x], r)
      | _ => None
      end
  end
with parse_members (fuel : nat) (ts : list token)
    : option (list (string * json_value) * list token) :=
  match fuel with
  | O => None
  | S fuel' =>
      match ts with
      | TStr key :: TColon :: r =>
          match parse_value fuel' r with
          | Some (x, TComma :: r') =>
              match parse_members fuel' r' with
              | Some (members, r'') => Some ((key, x) :: members, r'')
              | None => None
              end
          | Some (x, TRBrace :: r') => Some ([(key, x)], r')
          | _ => None
          end
      | _ => None
      end
  end.

(** [json.load] on the file: [None] stands for the exception raised when
    the bytes are not well-formed UTF-8 ([UnicodeDecodeError]), when the
    text is not one JSON value between blanks ([JSONDecodeError]) or
    when an integer has too many digits ([ValueError]). *)
Definition loads (text : string) : option json_value :=
  if utf8 text then
    match scan text with
    | Some toks =>
        match parse_value (List.length toks) toks with
        | Some (v, []) => Some v
        | _ => None
        end
    | None => None
    end
  else None.

Definition fits_int (n : Z) : bool :=
  match Z.to_int n with
  | Pos d | Neg d => fits d
  end.

(** The values [dumps] writes as text that reads back: integers within
    the digit limit, strings of well-formed UTF-8, no float. *)
Fixpoint valid_json (v : json_value) : bool :=
  match v with
  | JNull | JBool _ => true
  | JInt n => fits_int n
  | JFloat _ => false
  | JStr s => utf8 s
  | JArr items => forallb valid_json items
  | JObj members =>
      forallb (fun m => utf8 (fst m) && valid_json (snd m)) members
  end.

(** The tokens of the text of a value, in front of the tokens [k]. *)
Section ItemTokens.
Context {A : Type} (item_tokens : A -> list token -> list token).

Fixpoint more_tokens (close : token) (l : list A) (k : list token)
    : list token :=
  match l with
  | [] => close :: k
  | y :: l' => TComma :: item_tokens y (more_tokens close l' k)
  end.
End ItemTokens.

Fixpoint tokens_to (v : json_value) (k : list token) {struct v} : list token :=
  match v with
  | JNull => TNull :: k
  | JBool b => TBool b :: k
  | JInt n => TInt n :: k
  | JFloat literal => TFloat literal :: k
  | JStr s => TStr s :: k
  | JArr [] => TLBracket :: TRBracket :: k
  | JArr (x :: xs) =>
      TLBracket :: tokens_to x (more_tokens tokens_to TRBracket xs k)
  | JObj [] => TLBrace :: TRBrace :: k
  | JObj (m :: ms) =>
      let member_tokens (m : string * json_value) (k : list token) :=
        TStr (fst m) :: TColon :: tokens_to (snd m) k in
      TLBrace :: member_tokens m (more_tokens member_tokens TRBrace ms k)
  end.



(** *** Notions of the proof that what is written reads back *)
(** Where a number or word may end: at the end of the text or in front
    of a character that cannot continue it. *)
Definition boundary (k : string) : Prop :=
  match k with
  | "" => True
  | String c _ => atom_char c = false
  end.

Fixpoint all_atom (t : string) : bool :=
  match t with
  | "" => true
  | String c t' => atom_char c && all_atom t'
  end.

Definition add_tokens (f : list token -> list token) (r : option (list token))
    : option (list token) :=
  match r with
  | Some toks => Some (f toks)
  | None => None
  end.

(** The size of a value: enough fuel to read its tokens. *)
Section Sizes.
Context {A : Type} (size : A -> nat).
Fixpoint items_size (l : list A) : nat :=
  match l with
  | [] => O
  | y :: l' => S (size y + items_size l')
  end.
End Sizes.

Fixpoint json_size (v : json_value) : nat :=
  match v with
  | JArr items => S (items_size json_size items)
  | JObj members => S (items_size (fun m => json_size (snd m)) members)
  | _ => 1
  end.

Definition opens_value (t : token) : Prop :=
  match t with
  | TRBrace | TRBracket | TColon | TComma => False
  | _ => True
  end.

(** Induction on a value with the hypothesis for every item of a list
    and every member of a dictionary. *)
Section JsonInd.
Variable P : json_value -> Prop.
Hypothesis HNull : P JNull.
Hypothesis HBool : forall b, P (JBool b).
Hypothesis HInt : forall n, P (JInt n).
Hypothesis HFloat : forall literal, P (JFloat literal).
Hypothesis HStr : forall s, P (JStr s).
Hypothesis HArr : forall items, Forall P items -> P (JArr items).
Hypothesis HObj :
  forall members, Forall (fun m => P (snd m)) members -> P (JObj members).

Fixpoint json_nested_ind (v : json_value) : P v :=
  match v with
  | JNull => HNull
  | JBool b => HBool b
  | JInt n => HInt n
  | JFloat literal => HFloat literal
  | JStr s => HStr s
  | JArr items =>
      HArr items
        ((fix all (l : list json_value) : Forall P l :=
            match l with
            | [] => Forall_nil P
            | x :: l' => Forall_cons x (json_nested_ind x) (all l')
            end) items)
  | JObj members =>
      HObj members
        ((fix all (l : list (string * json_value)) : Forall (fun m => P (snd m)) l :=
            match l with
            | [] => Forall_nil _
            | m :: l' =>
                Forall_cons (P := fun m => P (snd m)) m
                  (json_nested_ind (snd m)) (all l')
            end) members)
  end.
End JsonInd.

(** ** Documents as JSON values

    The dictionaries of the program and the records of this file.
    [encode] lists the keys in the order of the dictionary literals of
    the source ([create_default_data], [_create_post], [_add_comment]);
    ['liked_by'] and ['comments'] are left out when the key is absent.
    [decode] reads a dictionary whatever the order of its keys (Python's
    [==] on dictionaries does not see the order); a value with another
    key, without one of the keys or with a value of another type is not
    a document. *)

Definition encode_user (u : User.t) : json_value :=
  JObj [ ("user_id", JInt (User.user_id u));
         ("username", JStr (User.username u));
         ("email", JStr (User.email u));
         ("bio", JStr (User.bio u));
         ("created_at", JStr (User.created_at u)) ].

Definition encode_comment (c : Comment.t) : json_value :=
  JObj [ ("user_id", JInt (Comment.user_id c));
         ("username", JStr (Comment.username c));
         ("text", JStr (Comment.text c));
         ("created_at", JStr (Comment.created_at c)) ].

Definition encode_post (p : Post.t) : json_value :=
  JObj ([ ("post_id", JInt (Post.post_id p));
          ("user_id", JInt (Post.user_id p));
          ("username", JStr (Post.username p));
          ("content", JStr (Post.content p));
          ("image_path",
           match Post.image_path p with Some path => JStr path | None => JNull end);
          ("likes", JInt (Post.likes p)) ]
        ++ match Post.liked_by p with
           | Some l => [ ("liked_by", JArr (map JInt l)) ]
           | None => []
           end
        ++ match Post.comments p with
           | Some l => [ ("comments", JArr (map encode_comment l)) ]
           | None => []
           end
        ++ [ ("created_at", JStr (Post.created_at p)) ]).

Definition encode (data : Document) : json_value :=
  JObj [ ("current_user", encode_user (current_user data));
         ("posts", JArr (map encode_post (posts data)));
         ("users", JArr (map encode_user (users data)));
         ("notifications", JArr (map JStr (notifications data))) ].

(** The value of a key of a dictionary read by [json.load]: of two
    members with the same key the later one stays. *)
Definition lookup (key : string) (members : list (string * json_value))
    : option json_value :=
  fold_left (fun found m => if String.eqb (fst m) key then Some (snd m) else found)
            members None.

Definition only_keys (keys : list string) (members : list (string * json_value))
    : bool :=
  forallb (fun m => existsb (String.eqb (fst m)) keys) members.

Definition and_then {A B : Type} (x : option A) (f : A -> option B) : option B :=
  match x with
  | Some a => f a
  | None => None
  end.

Definition as_int (v : json_value) : option Z :=
  match v with JInt n => Some n | _ => None end.

Definition as_str (v : json_value) : option string :=
  match v with JStr s => Some s | _ => None end.

Definition as_str_or_null (v : json_value) : option (option string) :=
  match v with
  | JStr s => Some (Some s)
  | JNull => Some None
  | _ => None
  end.

Fixpoint all_some {A B : Type} (f : A -> option B) (l : list A) : option (list B) :=
  match l with
  | [] => Some []
  | x :: l' =>
      match f x, all_some f l' with
      | Some y, Some ys => Some (y :: ys)
      | _, _ => None
      end
  end.

Definition as_list {B : Type} (f : json_value -> option B) (v : json_value)
    : option (list B) :=
  match v with
  | JArr items => all_some f items
  | _ => None
  end.

(** A key that may be absent. *)
Definition optional {B : Type} (f : json_value -> option B)
    (v : option json_value) : option (option B) :=
  match v with
  | Some x => option_map Some (f x)
  | None => Some None
  end.

Definition field {B : Type} (f : json_value -> option B) (key : string)
    (members : list (string * json_value)) : option B :=
  and_then (lookup key members) f.

Definition decode_user (v : json_value) : option User.t :=
  match v with
  | JObj ms =>
      if only_keys ["user_id"; "username"; "email"; "bio"; "created_at"] ms then
        and_then (field as_int "user_id" ms) (fun user_id =>
        and_then (field as_str "username" ms) (fun username =>
        and_then (field as_str "email" ms) (fun email =>
        and_then (field as_str "bio" ms) (fun bio =>
        and_then (field as_str "created_at" ms) (fun created_at =>
        Some (User.mk user_id username email bio created_at))))))
      else None
  | _ => None
  end.

Definition decode_comment (v : json_value) : option Comment.t :=
  match v with
  | JObj ms =>
      if only_keys ["user_id"; "username"; "text"; "created_at"] ms then
        and_then (field as_int "user_id" ms) (fun user_id =>
        and_then (field as_str "username" ms) (fun username =>
        and_then (field as_str "text" ms) (fun text =>
        and_then (field as_str "created_at" ms) (fun created_at =>
        Some (Comment.mk user_id username text created_at)))))
      else None
  | _ => None
  end.

Definition decode_post (v : json_value) : option Post.t :=
  match v with
  | JObj ms =>
      if only_keys ["post_id"; "user_id"; "username"; "content"; "image_path";
                    "likes"; "liked_by"; "comments"; "created_at"] ms then
        and_then (field as_int "post_id" ms) (fun post_id =>
        and_then (field as_int "user_id" ms) (fun user_id =>
        and_then (field as_str "username" ms) (fun username =>
        and_then (field as_str "content" ms) (fun content =>
        and_then (field as_str_or_null "image_path" ms) (fun image_path =>
        and_then (field as_int "likes" ms) (fun likes =>
        and_then (optional (as_list as_int) (lookup "liked_by" ms)) (fun liked_by =>
        and_then (optional (as_list decode_comment) (lookup "comments" ms))
          (fun comments =>
        and_then (field as_str "created_at" ms) (fun created_at =>
        Some (Post.mk post_id user_id username content image_path likes
                liked_by comments created_at))))))))))
      else None
  | _ => None
  end.

Definition decode (v : json_value) : option Document :=
  match v with
  | JObj ms =>
      if only_keys ["current_user"; "posts"; "users"; "notifications"] ms then
        and_then (field decode_user "current_user" ms) (fun current_user =>
        and_then (field (as_list decode_post) "posts" ms) (fun posts =>
        and_then (field (as_list decode_user) "users" ms) (fun users =>
        and_then (field (as_list as_str) "notifications" ms) (fun notifications =>
        Some (mkDocument current_user posts users notifications)))))
      else None
  | _ => None
  end.

(** Python's [json] module as the program calls it.  [rejected text] is
    the exception raised for a text that [json.load] does not read.
    [elsewhere v] is free: it stands for a value [json.load] returns
    that is not a document, which this file has no record for (the
    program goes on with it, and fails where it indexes it), so nothing
    below depends on it. *)
Definition python_json (rejected : string -> exn)
    (elsewhere : json_value -> outcome Document) : JsonLib :=
  {| json_dump := fun data => dumps (encode data);
     json_load := fun text =>
       match loads text with
       | Some v =>
           match decode v with
           | Some data => Ok data
           | None => elsewhere v
           end
       | None => Raise (rejected text)
       end |}.

(** The documents that can be written and read back: every string is
    well-formed UTF-8 (a [str] without lone surrogate) and every integer
    is within the digit limit.  For any other document [json.dump]
    raises in the middle of the write. *)
Definition valid_document (data : Document) : bool := valid_json (encode data).

(** The states of the file in which the handlers are followed: no file,
    a text [json.load] does not read, or the text of a document. *)
Definition document_or_rejected (file : option string) : bool :=
  match file with
  | None => true
  | Some text =>
      match loads text with
      | Some v => match decode v with Some _ => true | None => false end
      | None => true
      end
  end.

(** * Proofs *)

(** ** The Python list operations *)

Lemma py_in_true (x : Z) (l : list Z) : py_in x l = true <-> In x l.
Proof.
  unfold py_in. rewrite existsb_exists. split.
  - intros [y [Hy Heq]]. apply Z.eqb_eq in Heq. now subst.
  - intros H. exists x. split; [assumption | apply Z.eqb_refl].
Qed.

Lemma py_in_false (x : Z) (l : list Z) : py_in x l = false <-> ~ In x l.
Proof.
  rewrite <- py_in_true. destruct (py_in x l); split; congruence.
Qed.

Lemma py_remove_perm (x : Z) (l : list Z) :
  In x l -> Permutation l (x :: py_remove x l).
Proof.
  induction l as [| y l IH]; simpl; intros H.
  - contradiction.
  - destruct (Z.eqb_spec y x) as [-> | Hne].
    + reflexivity.
    + destruct H as [H | H]; [congruence |].
      rewrite perm_swap. constructor. now apply IH.
Qed.

Lemma py_remove_length (x : Z) (l : list Z) :
  In x l -> S (List.length (py_remove x l)) = List.length l.
Proof.
  intros H. apply py_remove_perm in H.
  apply Permutation_length in H. simpl in H. congruence.
Qed.

Lemma py_remove_absent (x : Z) (l : list Z) :
  ~ In x l -> py_remove x l = l.
Proof.
  induction l as [| y l IH]; simpl; intros H; [reflexivity |].
  destruct (Z.eqb_spec y x) as [-> | Hne].
  - exfalso. apply H. now left.
  - f_equal. apply IH. intros Hin. apply H. now right.
Qed.




Lemma fold_left_max_ge (l : list Z) (a : Z) :
  a <= fold_left Z.max l a /\ Forall (fun x => x <= fold_left Z.max l a) l.
Proof.
  revert a. induction l as [| x l IH]; simpl; intros a.
  - split; [lia | constructor].
  - destruct (IH (Z.max a x)) as [H1 H2]. split; [lia |].
    constructor; [lia | assumption].
Qed.

Lemma fold_left_max_in (l : list Z) (a : Z) :
  fold_left Z.max l a = a \/ In (fold_left Z.max l a) l.
Proof.
  revert a. induction l as [| x l IH]; simpl; intros a.
  - now left.
  - destruct (IH (Z.max a x)) as [H | H].
    + rewrite H. destruct (Z.max_spec a x) as [[_ ->] | [_ ->]]; auto.
    + right. now right.
Qed.

(** [max(l, default=d)] is [d] on the empty list and otherwise an element
    of [l] that no element exceeds. *)
Lemma py_max_spec (l : list Z) (d : Z) :
  (l = [] -> py_max l d = d) /\
  (l <> [] -> In (py_max l d) l /\ Forall (fun x => x <= py_max l d) l).
Proof.
  split.
  - intros ->. reflexivity.
  - destruct l as [| x l]; [congruence | intros _]. simpl py_max.
    destruct (fold_left_max_ge l x) as [H1 H2].
    split.
    + destruct (fold_left_max_in l x) as [H | H].
      * rewrite H. now left.
      * now right.
    + constructor; assumption.
Qed.

(** ** The loop *)

Lemma update_first_found (post_id : Z) (f : Post.t -> Post.t)
    (ps before : list Post.t) (post : Post.t) (after : list Post.t) :
  first_with_id post_id ps before post after ->
  update_first post_id f ps = before ++ f post :: after.
Proof.
  intros (-> & Hbefore & Hid).
  induction Hbefore as [| q before Hq _ IH]; simpl.
  - apply Z.eqb_eq in Hid. now rewrite Hid.
  - apply Z.eqb_neq in Hq. rewrite Hq. now f_equal.
Qed.

Lemma update_first_absent (post_id : Z) (f : Post.t -> Post.t)
    (ps : list Post.t) :
  no_post_with_id post_id ps -> update_first post_id f ps = ps.
Proof.
  induction 1 as [| q ps Hq _ IH]; simpl; [reflexivity |].
  apply Z.eqb_neq in Hq. rewrite Hq. now f_equal.
Qed.

(** The loop either stops at a first post with the id or finds none. *)
Lemma first_with_id_dec (post_id : Z) (ps : list Post.t) :
  no_post_with_id post_id ps \/
  exists before post after, first_with_id post_id ps before post after.
Proof.
  induction ps as [| q ps IH].
  - left. constructor.
  - destruct (Z.eq_dec (Post.post_id q) post_id) as [Heq | Hne].
    + right. exists [], q, ps. repeat split; auto.
    + destruct IH as [IH | (before & post & after & -> & Hb & Hid)].
      * left. constructor; assumption.
      * right. exists (q :: before), post, after.
        repeat split; auto.
Qed.

Lemma find_post_found (post_id : Z) (ps before : list Post.t)
    (post : Post.t) (after : list Post.t) :
  first_with_id post_id ps before post after ->
  find_post post_id ps = Some post.
Proof.
  intros (-> & Hbefore & Hid).
  induction Hbefore as [| q before Hq _ IH]; simpl.
  - apply Z.eqb_eq in Hid. now rewrite Hid.
  - apply Z.eqb_neq in Hq. now rewrite Hq.
Qed.

Lemma find_post_absent (post_id : Z) (ps : list Post.t) :
  no_post_with_id post_id ps -> find_post post_id ps = None.
Proof.
  induction 1 as [| q ps Hq _ IH]; simpl; [reflexivity |].
  apply Z.eqb_neq in Hq. now rewrite Hq.
Qed.

(** A change that keeps [g] keeps it over the whole list. *)
Lemma update_first_map {B : Type} (g : Post.t -> B) (post_id : Z)
    (f : Post.t -> Post.t) (ps : list Post.t) :
  Forall (fun q => g (f q) = g q) ps ->
  map g (update_first post_id f ps) = map g ps.
Proof.
  induction 1 as [| q ps Hq _ IH]; simpl; [reflexivity |].
  destruct (Z.eqb (Post.post_id q) post_id); simpl; congruence.
Qed.

Lemma update_first_Forall2 (R : Post.t -> Post.t -> Prop) (post_id : Z)
    (f : Post.t -> Post.t) (l : list Post.t) :
  (forall a, R a a) -> (forall a, R a (f a)) ->
  Forall2 R l (update_first post_id f l).
Proof.
  intros Hrefl Hf. induction l as [| q l IH]; simpl; [constructor |].
  destruct (Z.eqb (Post.post_id q) post_id); constructor; auto.
  clear IH. induction l; constructor; auto.
Qed.

Lemma set_posts_same (data : Document) : set_posts (posts data) data = data.
Proof. now destruct data. Qed.

(** ** Toggling a like *)

Lemma toggle_post_present (user_id : Z) (post : Post.t) :
  In user_id (Post.get_liked_by post) ->
  Post.liked_by (toggle_post user_id post)
    = Some (py_remove user_id (Post.get_liked_by post)) /\
  Post.likes (toggle_post user_id post) = Z.max 0 (Post.likes post - 1).
Proof.
  intros H. apply py_in_true in H. unfold toggle_post. rewrite H.
  split; reflexivity.
Qed.

Lemma toggle_post_absent (user_id : Z) (post : Post.t) :
  ~ In user_id (Post.get_liked_by post) ->
  Post.liked_by (toggle_post user_id post)
    = Some (Post.get_liked_by post ++ [user_id]) /\
  Post.likes (toggle_post user_id post) = Post.likes post + 1.
Proof.
  intros H. apply py_in_false in H. unfold toggle_post. rewrite H.
  destruct post as [i u n c img k [l |] cs t]; split; reflexivity.
Qed.

Lemma toggle_post_same (user_id : Z) (post : Post.t) :
  same_but_likes post (toggle_post user_id post).
Proof.
  unfold toggle_post, same_but_likes.
  destruct (py_in user_id (Post.get_liked_by post)); [now repeat split |].
  destruct post as [i u n c img k [l |] cs t]; now repeat split.
Qed.

Lemma toggle_post_id (user_id : Z) (post : Post.t) :
  Post.post_id (toggle_post user_id post) = Post.post_id post.
Proof. apply toggle_post_same. Qed.

Lemma get_liked_by_of (post : Post.t) (l : list Z) :
  Post.liked_by post = Some l -> Post.get_liked_by post = l.
Proof. unfold Post.get_liked_by. now intros ->. Qed.

(** A post whose count is not below the number of its likers keeps its
    surplus under a toggle. *)
Lemma toggle_post_surplus (user_id : Z) (post : Post.t) :
  0 <= surplus post -> surplus (toggle_post user_id post) = surplus post.
Proof.
  unfold surplus. intros H.
  destruct (in_dec Z.eq_dec user_id (Post.get_liked_by post)) as [Hin | Hout].
  - destruct (toggle_post_present user_id post Hin) as [Hl Hk].
    rewrite (get_liked_by_of _ _ Hl), Hk.
    pose proof (py_remove_length user_id _ Hin). lia.
  - destruct (toggle_post_absent user_id post Hout) as [Hl Hk].
    rewrite (get_liked_by_of _ _ Hl), Hk, length_app. simpl. lia.
Qed.

Lemma first_with_id_update (post_id : Z) (ps before : list Post.t)
    (post post' : Post.t) (after : list Post.t) :
  first_with_id post_id ps before post after ->
  Post.post_id post' = Post.post_id post ->
  first_with_id post_id (before ++ post' :: after) before post' after.
Proof.
  intros (_ & Hbefore & Hid) Hsame. repeat split; [assumption | congruence].
Qed.

(** C3.  [toggle_like] changes the first post with the id and nothing
    else: when the user is among its likers, one occurrence of the user
    is removed and the count becomes [max(0, likes - 1)]; when the user
    is not, the user is appended and the count grows by one.  When no
    post has the id the document is returned as it was.  On a post with
    likes = 2 and no likers, user 5 gets likes = 3 and likers [5], and a
    second call gives likes = 2 and no likers again. *)
Theorem toggle_like_spec (data : Document) (post_id user_id : Z) :
  (forall before post after,
     first_with_id post_id (posts data) before post after ->
     exists post',
       posts (toggle_like data post_id user_id) = before ++ post' :: after /\
       same_but_likes post post' /\
       (In user_id (Post.get_liked_by post) ->
        Post.liked_by post' = Some (py_remove user_id (Post.get_liked_by post)) /\
        Permutation (Post.get_liked_by post) (user_id :: Post.get_liked_by post') /\
        Post.likes post' = Z.max 0 (Post.likes post - 1) /\
        0 <= Post.likes post' /\
        (1 <= Post.likes post -> Post.likes post' = Post.likes post - 1)) /\
       (~ In user_id (Post.get_liked_by post) ->
        Post.liked_by post' = Some (Post.get_liked_by post ++ [user_id]) /\
        Post.likes post' = Post.likes post + 1)) /\
  (no_post_with_id post_id (posts data) ->
   toggle_like data post_id user_id = data) /\
  same_but_posts data (toggle_like data post_id user_id) /\
  (let d := sample_document [sample_post 1 2 []] in
   posts (toggle_like d 1 5) = [sample_post 1 3 [5]] /\
   posts (toggle_like (toggle_like d 1 5) 1 5) = [sample_post 1 2 []]).
Proof.
  repeat split.
  - intros before post after Hfirst.
    exists (toggle_post user_id post). split; [| split; [| split]].
    + unfold toggle_like. simpl. now apply update_first_found.
    + apply toggle_post_same.
    + intros Hin.
      destruct (toggle_post_present user_id post Hin) as [Hl Hk].
      rewrite (get_liked_by_of _ _ Hl), Hk.
      repeat split; [assumption | now apply py_remove_perm | lia | lia].
    + intros Hout. now apply toggle_post_absent.
  - intros Hnone. unfold toggle_like.
    rewrite update_first_absent by assumption. apply set_posts_same.
Qed.

Lemma toggle_like_spec_witness :
  (exists post',
     posts (toggle_like seeded 2 1)
       = firstn 1 (posts seeded) ++ post' :: skipn 2 (posts seeded) /\
     Post.liked_by post' = Some [1] /\
     Post.likes post' = 29) /\
  toggle_like seeded 7 1 = seeded.
Proof.
  destruct (toggle_like_spec seeded 2 1) as (Hfound & _).
  destruct (toggle_like_spec seeded 7 1) as (_ & Hnone & _).
  split.
  - destruct (Hfound (firstn 1 (posts seeded))
                     (nth 1 (posts seeded) (sample_post 0 0 []))
                     (skipn 2 (posts seeded)))
      as (post' & Hposts & _ & _ & Habsent).
    + repeat split. constructor; [simpl; lia | constructor].
    + exists post'. split; [exact Hposts |].
      apply Habsent. simpl. tauto.
  - apply Hnone. unfold seeded. simpl.
    repeat (constructor; [simpl; lia |]). constructor.
Defined.




(** ** The like count and the likers *)

Lemma append_comment_likes (c : Comment.t) (post : Post.t) :
  same_but_comments post (append_comment c post).
Proof.
  unfold append_comment, same_but_comments.
  destruct post as [i u n k img l lb [cs |] t]; now repeat split.
Qed.

Lemma append_comment_surplus (c : Comment.t) (post : Post.t) :
  surplus (append_comment c post) = surplus post.
Proof.
  destruct post as [i u n k img l lb [cs |] t]; reflexivity.
Qed.

Lemma likes_consistent_surplus (data : Document) :
  likes_consistent data <-> Forall (fun post => surplus post = 0) (posts data).
Proof.
  unfold likes_consistent, surplus.
  split; intros H; eapply Forall_impl; try exact H; simpl; intros; lia.
Qed.

Lemma Forall_map_eq {A B : Type} (g : A -> B) (b : B) (l l' : list A) :
  map g l' = map g l ->
  Forall (fun x => g x = b) l -> Forall (fun x => g x = b) l'.
Proof.
  revert l'. induction l as [| x l IH]; intros [| x' l'] Hmap H;
    try discriminate; constructor; inversion Hmap; inversion H; subst.
  - congruence.
  - now apply IH.
Qed.

Lemma toggle_like_surplus (data : Document) (post_id user_id : Z) :
  Forall (fun post => 0 <= surplus post) (posts data) ->
  map surplus (posts (toggle_like data post_id user_id))
    = map surplus (posts data).
Proof.
  intros Hge. unfold toggle_like. simpl.
  apply update_first_map. eapply Forall_impl; [| exact Hge].
  intros post. apply toggle_post_surplus.
Qed.

Lemma add_comment_surplus (data : Document) (post_id : Z) (user : User.t)
    (comment_text now : string) :
  map surplus (posts (add_comment data post_id user comment_text now))
    = map surplus (posts data).
Proof.
  unfold add_comment. simpl.
  apply update_first_map. apply Forall_forall. intros post _.
  apply append_comment_surplus.
Qed.

Lemma create_post_surplus (data : Document) (user : User.t)
    (caption : string) (image : option string) (now : string) :
  map surplus (posts (create_post data user caption image now))
    = 0 :: map surplus (posts data).
Proof. reflexivity. Qed.

(** C1 (as amended).  Post by post: [toggle_like] leaves the surplus of
    the like count over the number of likers of a post as it was whenever
    the count of that post is not below the number of its likers, so a
    post with [likes == len(liked_by)] keeps it; [add_comment] changes
    neither the count nor the likers of any post; [create_post] leaves
    the posts it finds untouched and puts a post with no likes and no
    likers in front. *)
Theorem operations_keep_surplus (data : Document) :
  (forall post_id user_id,
     Forall2 (fun p q =>
                (0 <= surplus p -> surplus q = surplus p) /\
                (likes_match p -> likes_match q))
             (posts data) (posts (toggle_like data post_id user_id))) /\
  (forall post_id user comment_text now,
     Forall2 (fun p q =>
                Post.likes q = Post.likes p /\
                Post.liked_by q = Post.liked_by p)
             (posts data)
             (posts (add_comment data post_id user comment_text now))) /\
  (forall user caption image now,
     exists post,
       posts (create_post data user caption image now) = post :: posts data /\
       Post.likes post = 0 /\
       Post.liked_by post = Some [] /\
       likes_match post).
Proof.
  split; [| split].
  - intros post_id user_id. unfold toggle_like. cbn [posts set_posts].
    apply update_first_Forall2.
    + intros p. split; auto.
    + intros p. split.
      * apply toggle_post_surplus.
      * unfold likes_match. intros Hp.
        assert (Hs : surplus p = 0) by (unfold surplus; lia).
        pose proof (toggle_post_surplus user_id p) as Hq.
        unfold surplus in Hq, Hs. lia.
  - intros post_id user comment_text now. unfold add_comment.
    cbn [posts set_posts].
    apply update_first_Forall2.
    + intros p. split; reflexivity.
    + intros p. split; apply append_comment_likes.
  - intros user caption image now.
    exists (new_post data user caption image now). repeat split.
Qed.

(** On a document with one post in order (no likes, no likers) and one
    post out of order (no likes, one liker), a like on the first keeps
    its surplus at 0 and makes its count 1, the count of its likers. *)
Lemma operations_keep_surplus_witness :
  let d := sample_document [sample_post 1 0 []; sample_post 2 0 [5]] in
  map surplus (posts d) = [0; -1] /\
  exists q rest,
    posts (toggle_like d 1 5) = q :: rest /\
    surplus q = 0 /\
    likes_match q /\
    Post.likes q = 1.
Proof.
  intros d. split; [reflexivity |].
  destruct (operations_keep_surplus d) as (Htoggle & _ & _).
  specialize (Htoggle 1 5).
  exists (toggle_post 5 (sample_post 1 0 [])), [sample_post 2 0 [5]].
  split; [reflexivity |].
  inversion Htoggle as [| p q ps qs [Hsurplus Hmatch] Hrest]. subst.
  split; [| split].
  - rewrite Hsurplus; [reflexivity | unfold surplus; simpl; lia].
  - apply Hmatch. reflexivity.
  - reflexivity.
Defined.

(** X19.  In every document the handlers produce from the seeded one,
    the three seeded posts, the last three of the list, still show 42,
    28 and 35 likes more than they have likers, and every later post
    shows exactly as many likes as it has likers. *)
Lemma reachable_surplus (data : Document) :
  reachable data ->
  exists n, map surplus (posts data) = repeat 0 n ++ [42; 28; 35].
Proof.
  induction 1 as [t1 t2 t3 t4 t5 t6 t7 t8
                 | data post_id _ [n IH]
                 | data caption image now _ [n IH]
                 | data post_id comment_text now _ [n IH]].
  - exists 0%nat. reflexivity.
  - exists n. rewrite <- IH. apply toggle_like_surplus.
    apply Forall_forall. intros post Hin.
    apply (in_map surplus) in Hin. rewrite IH in Hin.
    apply in_app_or in Hin. destruct Hin as [Hin | Hin].
    + apply repeat_spec in Hin. lia.
    + simpl in Hin. lia.
  - exists (S n). rewrite create_post_surplus, IH. reflexivity.
  - exists n. rewrite <- IH. apply add_comment_surplus.
Qed.

(** *** Documents made by the program

    The failures of the double toggle need a document that the program
    never writes itself: from the seeded document on, the only liker is
    the current user, at most once, and no count is below the number of
    likers. *)

Lemma update_first_twice (post_id : Z) (f g : Post.t -> Post.t)
    (ps : list Post.t) :
  (forall q, Post.post_id (g q) = Post.post_id q) ->
  update_first post_id f (update_first post_id g ps)
    = update_first post_id (fun q => f (g q)) ps.
Proof.
  intros Hg. induction ps as [| q ps IH]; simpl; [reflexivity |].
  destruct (Z.eqb (Post.post_id q) post_id) eqn:E; simpl.
  - now rewrite Hg, E.
  - now rewrite E, IH.
Qed.

Lemma update_first_id (post_id : Z) (f : Post.t -> Post.t)
    (ps : list Post.t) :
  Forall (fun q => f q = q) ps -> update_first post_id f ps = ps.
Proof.
  induction 1 as [| q ps Hq _ IH]; simpl; [reflexivity |].
  destruct (Z.eqb (Post.post_id q) post_id); congruence.
Qed.

Lemma update_first_Forall (P : Post.t -> Prop) (post_id : Z)
    (f : Post.t -> Post.t) (ps : list Post.t) :
  (forall q, P q -> P (f q)) ->
  Forall P ps -> Forall P (update_first post_id f ps).
Proof.
  intros Hf. induction 1 as [| q ps Hq Hps IH]; simpl; [constructor |].
  destruct (Z.eqb (Post.post_id q) post_id); constructor; auto.
Qed.

Lemma toggle_post_tidy (user_id : Z) (post : Post.t) :
  tidy_post user_id post -> tidy_post user_id (toggle_post user_id post).
Proof.
  intros [Hl Hs]. split.
  - destruct post as [i u n k img l lb cs t]. simpl in Hl.
    unfold toggle_post. destruct Hl as [-> | ->]; simpl.
    + now right.
    + rewrite Z.eqb_refl. simpl. now left.
  - now rewrite toggle_post_surplus.
Qed.

Lemma toggle_post_twice_tidy (user_id : Z) (post : Post.t) :
  tidy_post user_id post ->
  toggle_post user_id (toggle_post user_id post) = post.
Proof.
  intros [Hl Hs]. destruct post as [i u n k img l lb cs t].
  unfold surplus in Hs. simpl in Hl, Hs.
  unfold toggle_post. destruct Hl as [-> | ->]; simpl in *.
  - rewrite Z.eqb_refl. simpl.
    unfold Post.set_likes, Post.set_liked_by. simpl. f_equal. lia.
  - rewrite Z.eqb_refl. simpl.
    unfold Post.set_likes, Post.set_liked_by. simpl. f_equal. lia.
Qed.

Lemma reachable_tidy (data : Document) :
  reachable data ->
  Forall (tidy_post (User.user_id (current_user data))) (posts data).
Proof.
  induction 1 as [t1 t2 t3 t4 t5 t6 t7 t8
                 | data post_id _ IH
                 | data caption image now _ IH
                 | data post_id comment_text now _ IH]; simpl.
  - repeat (constructor; [split; [now left | unfold surplus; simpl; lia] |]).
    constructor.
  - apply update_first_Forall; [apply toggle_post_tidy | assumption].
  - constructor; [| assumption].
    split; [now left | unfold surplus; simpl; lia].
  - apply update_first_Forall; [| assumption].
    intros q [Hl Hs]. split.
    + now rewrite (proj1 (proj2 (proj2 (proj2 (proj2 (proj2 (proj2
                    (append_comment_likes _ q)))))))).
    + now rewrite append_comment_surplus.
Qed.

(** X20.  From the seeded document on, liking and unliking a post (or
    unliking and liking it again) as the current user gives the very
    same document back. *)
Lemma reachable_toggle_like_twice (data : Document) (post_id : Z) :
  reachable data ->
  let user_id := User.user_id (current_user data) in
  toggle_like (toggle_like data post_id user_id) post_id user_id = data.
Proof.
  intros Hr user_id. apply reachable_tidy in Hr. fold user_id in Hr.
  unfold toggle_like. simpl.
  rewrite update_first_twice by apply toggle_post_id.
  rewrite update_first_id.
  - destruct data; reflexivity.
  - eapply Forall_impl; [| exact Hr]. apply toggle_post_twice_tidy.
Qed.

(** ** Creating posts *)

Lemma new_post_id (data : Document) (user : User.t) (caption : string)
    (image : option string) (now : string) :
  Post.post_id (new_post data user caption image now) = fresh_id data.
Proof. reflexivity. Qed.

(** The id is above every id of the document. *)
Lemma fresh_id_above (data : Document) :
  Forall (fun id => id < fresh_id data) (post_ids data).
Proof.
  unfold fresh_id, post_ids.
  destruct (map Post.post_id (posts data)) as [| x l] eqn:E; [constructor |].
  destruct (py_max_spec (x :: l) 0) as [_ H].
  destruct H as [_ H]; [discriminate |].
  eapply Forall_impl; [| exact H]. simpl. intros. lia.
Qed.

Lemma fresh_id_empty (data : Document) :
  posts data = [] -> fresh_id data = 1.
Proof. unfold fresh_id. now intros ->. Qed.

(** On a document with posts, the id is one more than the id of a post
    that has the largest id. *)
Lemma fresh_id_max (data : Document) :
  posts data <> [] ->
  exists post,
    In post (posts data) /\
    fresh_id data = Post.post_id post + 1 /\
    Forall (fun q => Post.post_id q <= Post.post_id post) (posts data).
Proof.
  intros Hne. unfold fresh_id.
  destruct (py_max_spec (map Post.post_id (posts data)) 0) as [_ H].
  destruct H as [Hin Hall].
  { destruct (posts data); [congruence | discriminate]. }
  apply in_map_iff in Hin. destruct Hin as (post & Heq & Hin).
  exists post. rewrite Heq. repeat split; [assumption |].
  rewrite Forall_map in Hall. assumption.
Qed.

Lemma fresh_id_not_in (data : Document) : ~ In (fresh_id data) (post_ids data).
Proof.
  intros Hin. pose proof (fresh_id_above data) as H.
  rewrite Forall_forall in H. specialize (H _ Hin). lia.
Qed.

Lemma create_post_ids (data : Document) (user : User.t) (caption : string)
    (image : option string) (now : string) :
  post_ids (create_post data user caption image now)
    = fresh_id data :: post_ids data.
Proof. reflexivity. Qed.

Lemma create_posts_ids (data : Document) (calls : list post_input) :
  post_ids (create_posts data calls)
    = rev (allocated_ids data calls) ++ post_ids data.
Proof.
  unfold create_posts.
  revert data. induction calls as [| c calls IH]; intros data; simpl.
  - reflexivity.
  - rewrite IH, create_post_ids, <- app_assoc. reflexivity.
Qed.

(** Every id given out is above the ids the document had, and the ids
    given out grow from call to call. *)
Lemma allocated_ids_sorted (data : Document) (calls : list post_input) :
  Forall (fun id => Forall (fun old => old < id) (post_ids data))
         (allocated_ids data calls) /\
  StronglySorted Z.lt (allocated_ids data calls).
Proof.
  revert data. induction calls as [| c calls IH]; intros data;
    cbn [allocated_ids].
  - split; constructor.
  - specialize (IH (create_post data (in_user c) (in_caption c)
                                (in_image c) (in_now c))).
    rewrite create_post_ids in IH. destruct IH as [Habove Hsorted].
    rewrite new_post_id. split.
    + constructor; [apply fresh_id_above |].
      eapply Forall_impl; [| exact Habove].
      intros id H. now inversion H.
    + constructor; [assumption |].
      eapply Forall_impl; [| exact Habove].
      intros id H. now inversion H.
Qed.

Lemma create_posts_nodup (data : Document) (calls : list post_input) :
  NoDup (post_ids data) -> NoDup (post_ids (create_posts data calls)).
Proof.
  unfold create_posts.
  revert data. induction calls as [| c calls IH]; intros data H; simpl.
  - assumption.
  - apply IH. rewrite create_post_ids.
    constructor; [apply fresh_id_not_in | assumption].
Qed.

(** C4.  The id [create_post] gives out is 1 on a document without posts
    and otherwise the largest id of the document plus 1, so it is above
    every id of the document.  Over any sequence of calls the ids given
    out grow strictly from call to call, each is above every id the
    document had, the document holds them in front of its old ids (newest
    first), and ids that were unique stay unique. *)
Theorem create_post_ids_fresh (data : Document) (calls : list post_input) :
  (forall user caption image now,
     let id := Post.post_id (new_post data user caption image now) in
     (posts data = [] -> id = 1) /\
     (posts data <> [] ->
      exists post,
        In post (posts data) /\
        id = Post.post_id post + 1 /\
        Forall (fun q => Post.post_id q <= Post.post_id post) (posts data)) /\
     Forall (fun old => old < id) (post_ids data)) /\
  post_ids (create_posts data calls)
    = rev (allocated_ids data calls) ++ post_ids data /\
  List.length (allocated_ids data calls) = List.length calls /\
  StronglySorted Z.lt (allocated_ids data calls) /\
  Forall (fun id => Forall (fun old => old < id) (post_ids data))
         (allocated_ids data calls) /\
  (NoDup (post_ids data) -> NoDup (post_ids (create_posts data calls))).
Proof.
  split; [| split; [| split; [| split; [| split]]]].
  - intros user caption image now id. subst id. rewrite new_post_id.
    split; [apply fresh_id_empty | split; [apply fresh_id_max | apply fresh_id_above]].
  - apply create_posts_ids.
  - revert data. induction calls as [| c calls IH]; intros data; simpl;
      [reflexivity | now rewrite IH].
  - apply allocated_ids_sorted.
  - apply allocated_ids_sorted.
  - apply create_posts_nodup.
Qed.

Lemma create_post_ids_fresh_witness :
  let calls := [ mkPostInput alice "first" None "2024-01-02T00:00:00";
                 mkPostInput alice "second" None "2024-01-03T00:00:00" ] in
  NoDup (post_ids (create_posts seeded calls)) /\
  post_ids (create_posts seeded calls) = [5; 4; 1; 2; 3] /\
  allocated_ids seeded calls = [4; 5].
Proof.
  intros calls.
  destruct (create_post_ids_fresh seeded calls) as (_ & _ & _ & _ & _ & H).
  split; [| split; reflexivity].
  apply H. unfold seeded, post_ids. simpl.
  repeat (constructor; [simpl; intuition lia |]). constructor.
Defined.

(** C5.  [create_post] puts exactly one new post at position 0, with the
    given author id, username, caption and image path, no likes, no
    likers, no comments and the given time; the posts the document had
    follow unchanged and in order, one position later, and nothing else
    in the document changes.  When the largest id was 3 the new post has
    id 4. *)
Theorem create_post_spec (data : Document) (user : User.t)
    (caption : string) (image : option string) (now : string) :
  let data' := create_post data user caption image now in
  exists post,
    nth_error (posts data') 0 = Some post /\
    (forall i, nth_error (posts data') (S i) = nth_error (posts data) i) /\
    List.length (posts data') = S (List.length (posts data)) /\
    same_but_posts data data' /\
    Post.user_id post = User.user_id user /\
    Post.username post = User.username user /\
    Post.content post = caption /\
    Post.image_path post = image /\
    Post.likes post = 0 /\
    Post.liked_by post = Some [] /\
    Post.comments post = Some [] /\
    Post.created_at post = now /\
    ((exists q, In q (posts data) /\ Post.post_id q = 3) ->
     Forall (fun q => Post.post_id q <= 3) (posts data) ->
     Post.post_id post = 4).
Proof.
  intros data'. exists (new_post data user caption image now).
  repeat split.
  intros (q & Hin & Hq) Hall. rewrite new_post_id.
  destruct (fresh_id_max data) as (top & Htop & -> & Hmax).
  { intros E. rewrite E in Hin. contradiction. }
  rewrite Forall_forall in Hall, Hmax.
  specialize (Hall _ Htop). specialize (Hmax _ Hin). lia.
Qed.

Lemma create_post_spec_witness :
  exists post,
    nth_error (posts (create_post seeded alice "hi" None "2024-01-02T00:00:00")) 0
      = Some post /\
    Post.post_id post = 4.
Proof.
  destruct (create_post_spec seeded alice "hi" None "2024-01-02T00:00:00")
    as (post & H0 & _ & _ & _ & _ & _ & _ & _ & _ & _ & _ & _ & H).
  exists post. split; [exact H0 |].
  apply H.
  - eexists. split; [right; right; left; reflexivity | reflexivity].
  - unfold seeded. simpl. repeat (constructor; [simpl; lia |]). constructor.
Defined.

(** ** Adding comments *)

Lemma append_comment_comments (c : Comment.t) (post : Post.t) :
  Post.comments (append_comment c post) = Some (Post.get_comments post ++ [c]).
Proof. destruct post as [i u n k img l lb [cs |] t]; reflexivity. Qed.

Lemma get_comments_of (post : Post.t) (cs : list Comment.t) :
  Post.comments post = Some cs -> Post.get_comments post = cs.
Proof. unfold Post.get_comments. now intros ->. Qed.

Lemma same_but_comments_refl (post : Post.t) : same_but_comments post post.
Proof. now repeat split. Qed.

Lemma same_but_comments_trans (p q r : Post.t) :
  same_but_comments p q -> same_but_comments q r -> same_but_comments p r.
Proof.
  unfold same_but_comments. intros Hpq Hqr.
  repeat split; etransitivity; solve [apply Hqr | apply Hpq].
Qed.

Lemma add_comment_found (data : Document) (post_id : Z) (user : User.t)
    (comment_text now : string) (before : list Post.t) (post : Post.t)
    (after : list Post.t) :
  first_with_id post_id (posts data) before post after ->
  posts (add_comment data post_id user comment_text now)
    = before
      ++ append_comment
           (Comment.mk (User.user_id user) (User.username user) comment_text now)
           post
      :: after.
Proof. intros H. unfold add_comment. simpl. now apply update_first_found. Qed.

Lemma add_comment_absent (data : Document) (post_id : Z) (user : User.t)
    (comment_text now : string) :
  no_post_with_id post_id (posts data) ->
  add_comment data post_id user comment_text now = data.
Proof.
  intros H. unfold add_comment.
  rewrite update_first_absent by assumption. apply set_posts_same.
Qed.

(** Comments of successive calls pile up in the order of the calls. *)
Lemma add_comments_found (calls : list comment_input) (data : Document)
    (post_id : Z) (before : list Post.t) (post : Post.t) (after : list Post.t) :
  first_with_id post_id (posts data) before post after ->
  exists post',
    posts (add_comments data post_id calls) = before ++ post' :: after /\
    same_but_comments post post' /\
    Post.get_comments post' = Post.get_comments post ++ map comment_of calls.
Proof.
  unfold add_comments.
  revert data post. induction calls as [| c calls IH]; intros data post Hfirst.
  - exists post. simpl. rewrite app_nil_r.
    split; [apply Hfirst | split; [apply same_but_comments_refl | reflexivity]].
  - simpl.
    pose proof (add_comment_found data post_id (by_user c) (with_text c)
                  (at_time c) before post after Hfirst) as Hstep.
    set (post1 := append_comment (comment_of c) post).
    fold (comment_of c) in Hstep. fold post1 in Hstep.
    assert (Hsame : same_but_comments post post1) by apply append_comment_likes.
    destruct (IH (add_comment data post_id (by_user c) (with_text c) (at_time c))
                 post1) as (post' & Hposts & Hsame' & Hcs).
    { rewrite Hstep. eapply first_with_id_update; [eassumption |].
      apply Hsame. }
    exists post'. split; [assumption | split].
    + eapply same_but_comments_trans; eassumption.
    + rewrite Hcs. unfold post1.
      rewrite (get_comments_of _ _ (append_comment_comments _ _)).
      now rewrite <- app_assoc.
Qed.

(** C7.  When a post has the id, [add_comment] changes the first such
    post only, putting one comment with the given user id, username,
    text and time after the comments it had; over repeated calls the
    comments follow the old ones in the order of the calls.  When no post
    has the id the document is returned as it was. *)
Theorem add_comment_spec (data : Document) (post_id : Z) (user : User.t)
    (comment_text now : string) :
  (forall before post after,
     first_with_id post_id (posts data) before post after ->
     exists post',
       posts (add_comment data post_id user comment_text now)
         = before ++ post' :: after /\
       same_but_comments post post' /\
       Post.comments post'
         = Some (Post.get_comments post
                 ++ [Comment.mk (User.user_id user) (User.username user)
                                comment_text now])) /\
  (forall calls before post after,
     first_with_id post_id (posts data) before post after ->
     exists post',
       posts (add_comments data post_id calls) = before ++ post' :: after /\
       same_but_comments post post' /\
       Post.get_comments post' = Post.get_comments post ++ map comment_of calls) /\
  (no_post_with_id post_id (posts data) ->
   add_comment data post_id user comment_text now = data) /\
  same_but_posts data (add_comment data post_id user comment_text now).
Proof.
  split; [| split; [| split]].
  - intros before post after Hfirst.
    exists (append_comment
              (Comment.mk (User.user_id user) (User.username user)
                          comment_text now) post).
    split; [apply add_comment_found; exact Hfirst |].
    split; [apply append_comment_likes | apply append_comment_comments].
  - intros calls before post after. apply add_comments_found.
  - apply add_comment_absent.
  - now repeat split.
Qed.

Lemma add_comment_spec_witness :
  (exists post',
     posts (add_comments seeded 2
              [ mkCommentInput alice "one" "2024-01-02T00:00:00";
                mkCommentInput alice "two" "2024-01-03T00:00:00" ])
       = firstn 1 (posts seeded) ++ post' :: skipn 2 (posts seeded) /\
     map Comment.text (Post.get_comments post') = ["Same here!"; "one"; "two"]) /\
  add_comment seeded 7 alice "one" "2024-01-02T00:00:00" = seeded.
Proof.
  destruct (add_comment_spec seeded 2 alice "one" "2024-01-02T00:00:00")
    as (_ & Hmany & _).
  destruct (add_comment_spec seeded 7 alice "one" "2024-01-02T00:00:00")
    as (_ & _ & Hnone & _).
  split.
  - destruct (Hmany [ mkCommentInput alice "one" "2024-01-02T00:00:00";
                      mkCommentInput alice "two" "2024-01-03T00:00:00" ]
                    (firstn 1 (posts seeded))
                    (nth 1 (posts seeded) (sample_post 0 0 []))
                    (skipn 2 (posts seeded)))
      as (post' & Hposts & _ & Hcs).
    + repeat split. constructor; [simpl; lia | constructor].
    + exists post'. split; [exact Hposts |]. now rewrite Hcs.
  - apply Hnone. unfold seeded. simpl.
    repeat (constructor; [simpl; lia |]). constructor.
Defined.

(** ** Saving and loading *)

Ltac run_py :=
  unfold load_data, create_default_data, save_data, refresh_feed,
         bind, try_except, lift, ret,
         os_path_exists, read_text, write_text, print, messagebox,
         datetime_now_isoformat, result, world_after, set_data_file;
  cbn [data_file disk_fault clock ticks stdout dialogs fst snd].

(** [save_data] always returns; what it leaves in the file and on the
    screen depends on the fault it meets, and nothing else changes. *)
Lemma save_data_run {json : JsonLib} (data : Document) (w : World) :
  save_data data w
    = (Ok tt,
       mkWorld (file_after_save data w) (disk_fault w) (clock w) (ticks w)
               (stdout w) (dialogs w ++ dialogs_of_save w)).
Proof.
  unfold file_after_save, dialogs_of_save.
  destruct w as [file fault clk n out dlg].
  destruct fault as [| e | written e]; run_py; rewrite ?app_nil_r; reflexivity.
Qed.

(** [create_default_data] reads the clock eight times, saves the seeded
    document and returns it. *)
Lemma create_default_data_run {json : JsonLib} (w : World) :
  create_default_data w
    = (Ok (default_data_at w),
       mkWorld (file_after_save (default_data_at w) w) (disk_fault w) (clock w)
               (8 + ticks w) (stdout w) (dialogs w ++ dialogs_of_save w)).
Proof.
  destruct w as [file fault clk n out dlg].
  destruct fault as [| e | written e];
    unfold dialogs_of_save; cbn [disk_fault]; rewrite ?app_nil_r;
    vm_compute; reflexivity.
Qed.

(** [load_data] on a file the JSON library reads: the document, and the
    world is left as it was. *)
Lemma load_data_parsed {json : JsonLib} (w : World) (text : string)
    (data : Document) :
  data_file w = Some text ->
  json_load text = Ok data ->
  load_data w = (Ok data, w).
Proof.
  intros Hfile Hload. unfold load_data.
  unfold bind at 1. unfold os_path_exists. rewrite Hfile.
  unfold try_except, bind, read_text, lift. now rewrite Hfile, Hload.
Qed.

(** [load_data] on a file the JSON library rejects: the exception is
    printed and the seeded document is made, saved and returned. *)
Lemma load_data_rejected {json : JsonLib} (w : World) (text : string) (e : exn) :
  data_file w = Some text ->
  json_load text = Raise e ->
  load_data w
    = (Ok (default_data_at w),
       mkWorld (file_after_save (default_data_at w) w) (disk_fault w) (clock w)
               (8 + ticks w) (stdout w ++ [("Error loading data: " ++ str e)%string])
               (dialogs w ++ dialogs_of_save w)).
Proof.
  intros Hfile Hload. unfold load_data.
  unfold bind at 1. unfold os_path_exists. rewrite Hfile.
  unfold try_except, bind at 1. unfold read_text. rewrite Hfile.
  unfold lift. rewrite Hload.
  unfold bind, print. rewrite create_default_data_run.
  unfold default_data_at, file_after_save, dialogs_of_save.
  cbn [data_file disk_fault clock ticks stdout dialogs].
  reflexivity.
Qed.

(** [load_data] without a file: the seeded document is made, saved and
    returned. *)
Lemma load_data_missing {json : JsonLib} (w : World) :
  data_file w = None ->
  load_data w
    = (Ok (default_data_at w),
       mkWorld (file_after_save (default_data_at w) w) (disk_fault w) (clock w)
               (8 + ticks w) (stdout w) (dialogs w ++ dialogs_of_save w)).
Proof.
  intros Hfile. unfold load_data.
  unfold bind at 1. unfold os_path_exists. rewrite Hfile.
  apply create_default_data_run.
Qed.

(** C1 as stated fails at the first step: with no file, [load_data]
    returns the seeded document, whose posts have 42, 28 and 35 likes and
    no likers. *)
Lemma seeded_likes_exceed_likers :
  exists data,
    result (@load_data (sample_json seeded) (sample_world None NoFault)) = Ok data /\
    map Post.likes (posts data) = [42; 28; 35] /\
    map Post.liked_by (posts data) = [Some []; Some []; Some []] /\
    map surplus (posts data) = [42; 28; 35].
Proof.
  exists (default_data_at (sample_world None NoFault)).
  split; [| repeat split].
  unfold result. now rewrite load_data_missing.
Qed.


(** ** Python's [json] module: what is written reads back *)

Lemma scan_atom_boundary (k : string) :
  boundary k -> scan_atom k = no_text (scan k).
Proof.
  destruct k as [| c r]; simpl; [reflexivity |].
  intros ->. reflexivity.
Qed.

Lemma scan_atom_text (t k : string) :
  all_atom t = true -> boundary k ->
  scan_atom (t ++ k)
    = match scan k with Some toks => Some (t, toks) | None => None end.
Proof.
  intros Ht Hk. induction t as [| c t IH].
  - simpl. rewrite scan_atom_boundary by assumption.
    now destruct (scan k).
  - simpl in Ht. apply andb_prop in Ht. destruct Ht as [Hc Ht].
    cbn [append scan_atom]. rewrite Hc, (IH Ht).
    now destruct (scan k).
Qed.

Lemma scan_text (c : ascii) (t k : string) :
  all_atom (String c t) = true -> boundary k ->
  scan (String c t ++ k)
    = match classify (String c t), scan k with
      | Some tok, Some toks => Some (tok :: toks)
      | _, _ => None
      end.
Proof.
  intros Ht Hk. pose proof Ht as Ht'. simpl in Ht'.
  apply andb_prop in Ht'. destruct Ht' as [Hc Ht'].
  cbn [append scan]. rewrite Hc, (scan_atom_text t k Ht' Hk).
  destruct (scan k); simpl; now destruct (classify (String c t)).
Qed.

(** Integers. *)

Lemma nzhead_not_D0 (d d' : uint) : nzhead d <> D0 d'.
Proof. induction d; simpl; try discriminate; assumption. Qed.

Lemma unorm_canonical (d : uint) : unorm d = d -> canonical d = true.
Proof.
  destruct d; try reflexivity.
  - discriminate.
  - rewrite unorm_D0. unfold unorm.
    destruct (nzhead d) eqn:E; intros H; try discriminate.
    + injection H as <-. reflexivity.
    + exfalso. apply (nzhead_not_D0 d u). congruence.
Qed.

Lemma pos_to_uint_canonical (p : positive) : canonical (Pos.to_uint p) = true.
Proof.
  apply unorm_canonical.
  rewrite <- (DecimalN.Unsigned.to_of (Pos.to_uint p)).
  rewrite DecimalPos.Unsigned.of_to. reflexivity.
Qed.

Lemma all_atom_uint (d : uint) : all_atom (NilEmpty.string_of_uint d) = true.
Proof. induction d; simpl; auto. Qed.

Lemma print_int_classify (n : Z) :
  fits_int n = true ->
  exists c t,
    print_int n = String c t /\
    all_atom (String c t) = true /\
    classify (String c t) = Some (TInt n).
Proof.
  unfold print_int, fits_int. intros Hfits.
  assert (Hcanon : match Z.to_int n with Pos d | Neg d => canonical d = true end).
  { destruct n as [| p | p]; simpl; try apply pos_to_uint_canonical.
    reflexivity. }
  assert (Hval : Z.of_int (Z.to_int n) = n) by apply DecimalZ.of_to.
  destruct (Z.to_int n) as [d | d].
  - destruct (NilEmpty.string_of_uint d) as [| c t] eqn:Hs.
    { destruct d; simpl in Hs; discriminate. }
    exists c, t. split; [exact Hs | split].
    + rewrite <- Hs. apply all_atom_uint.
    + assert (Hword : classify (String c t)
                      = match NilEmpty.int_of_string (String c t) with
                        | Some (Pos d) =>
                            if canonical d && fits d
                            then Some (TInt (Z.of_int (Pos d))) else None
                        | Some (Neg d) =>
                            if canonical d && fits d
                            then Some (TInt (Z.of_int (Neg d))) else None
                        | None =>
                            if is_float (String c t)
                            then Some (TFloat (String c t)) else None
                        end).
      { destruct d; simpl in Hs; try discriminate;
          injection Hs as <- _; reflexivity. }
      rewrite Hword, <- Hs.
      change (NilEmpty.string_of_uint d) with (NilEmpty.string_of_int (Pos d)).
      rewrite NilEmpty.isi, Hcanon, Hfits, Hval. reflexivity.
  - exists "-"%char, (NilEmpty.string_of_uint d).
    split; [reflexivity | split].
    + apply all_atom_uint.
    + assert (Hword : classify (String "-" (NilEmpty.string_of_uint d))
                      = match NilEmpty.int_of_string
                                (String "-" (NilEmpty.string_of_uint d)) with
                        | Some (Pos d) =>
                            if canonical d && fits d
                            then Some (TInt (Z.of_int (Pos d))) else None
                        | Some (Neg d) =>
                            if canonical d && fits d
                            then Some (TInt (Z.of_int (Neg d))) else None
                        | None =>
                            if is_float (String "-" (NilEmpty.string_of_uint d))
                            then Some (TFloat (String "-" (NilEmpty.string_of_uint d)))
                            else None
                        end).
      { destruct d; reflexivity. }
      rewrite Hword.
      change (String "-" (NilEmpty.string_of_uint d))
        with (NilEmpty.string_of_int (Neg d)).
      rewrite NilEmpty.isi, Hcanon, Hfits, Hval. reflexivity.
Qed.

Lemma scan_print_int (n : Z) (k : string) :
  fits_int n = true -> boundary k ->
  scan (print_int n ++ k) = emit (TInt n) (scan k).
Proof.
  intros Hn Hk.
  destruct (print_int_classify n Hn) as (c & t & -> & Hatom & Hclass).
  rewrite (scan_text c t k Hatom Hk), Hclass. reflexivity.
Qed.

(** Strings. *)

Lemma scan_string_escape_char (c : ascii) (rest : string) :
  scan_string (escape_char c ++ rest) = map_text (String c) (scan_string rest).
Proof.
  destruct c as [[|] [|] [|] [|] [|] [|] [|] [|]]; reflexivity.
Qed.

Lemma scan_string_escape (s k : string) :
  scan_string (escape_to s (String dquote k))
    = match scan k with Some toks => Some (s, toks) | None => None end.
Proof.
  induction s as [| c s IH]; cbn [escape_to].
  - cbn. now destruct (scan k).
  - rewrite scan_string_escape_char, IH. now destruct (scan k).
Qed.

Lemma scan_quote (s k : string) :
  scan (quote_to s k) = emit (TStr s) (scan k).
Proof.
  unfold quote_to. cbn [scan]. 
  change (atom_char dquote) with false. change (delimiter_of dquote) with Quote.
  cbv iota. rewrite scan_string_escape. now destruct (scan k).
Qed.

(** Layout. *)

Lemma scan_spaces (n : nat) (k : string) : scan (spaces n k) = scan k.
Proof. induction n as [| n IH]; [reflexivity | exact IH]. Qed.

Lemma scan_newline_indent (level : nat) (k : string) :
  scan (newline_indent level k) = scan k.
Proof. unfold newline_indent. cbn [scan]. apply scan_spaces. Qed.

Lemma boundary_newline_indent (level : nat) (k : string) :
  boundary (newline_indent level k).
Proof. reflexivity. Qed.

Lemma scan_more {A : Type} (item_to : A -> string -> string)
    (item_tokens : A -> list token -> list token)
    (level : nat) (close : ascii) (close_token : token)
    (l : list A) (k : string) :
  atom_char close = false ->
  delimiter_of close = Punct close_token ->
  Forall (fun y => forall k', boundary k' ->
                   scan (item_to y k') = add_tokens (item_tokens y) (scan k')) l ->
  scan (more_to item_to level close l k)
    = add_tokens (more_tokens item_tokens close_token l) (scan k).
Proof.
  intros Hatom Hclose. induction 1 as [| y l Hy _ IH]; cbn [more_to more_tokens].
  - rewrite scan_newline_indent. cbn [scan]. rewrite Hatom, Hclose.
    now destruct (scan k).
  - cbn [scan]. change (atom_char ",") with false.
    change (delimiter_of ",") with (Punct TComma). cbv iota.
    rewrite scan_newline_indent, Hy, IH.
    + now destruct (scan k).
    + destruct l; reflexivity.
Qed.

Lemma boundary_more {A : Type} (item_to : A -> string -> string)
    (level : nat) (close : ascii) (l : list A) (k : string) :
  boundary (more_to item_to level close l k).
Proof. destruct l; reflexivity. Qed.

Lemma Forall_forallb {A : Type} (f : A -> bool) (Q : A -> Prop) (l : list A) :
  Forall (fun y => f y = true -> Q y) l -> forallb f l = true -> Forall Q l.
Proof.
  induction 1 as [| y l Hy _ IH]; cbn [forallb]; intros Hl; constructor;
    apply andb_prop in Hl; destruct Hl; auto.
Qed.

Lemma scan_dump (v : json_value) :
  valid_json v = true ->
  forall (level : nat) (k : string),
    boundary k ->
    scan (dump_to level v k) = add_tokens (tokens_to v) (scan k).
Proof.
  induction v as [| b | n | literal | s | items IH | members IH]
    using json_nested_ind; intros Hv level k Hk; cbn [valid_json] in Hv.
  - cbn [dump_to tokens_to].
    rewrite (scan_text "n" "ull" k eq_refl Hk). now destruct (scan k).
  - destruct b; cbn [dump_to tokens_to].
    + rewrite (scan_text "t" "rue" k eq_refl Hk). now destruct (scan k).
    + rewrite (scan_text "f" "alse" k eq_refl Hk). now destruct (scan k).
  - cbn [dump_to tokens_to]. now rewrite scan_print_int.
  - discriminate Hv.
  - cbn [dump_to tokens_to]. apply scan_quote.
  - pose proof (Forall_forallb _ _ _ IH Hv) as IH'. clear IH Hv.
    destruct items as [| x xs]; cbn [dump_to tokens_to].
    + cbn. now destruct (scan k).
    + inversion IH' as [| x' xs' Hx Hxs]; subst.
      cbn [scan]. change (atom_char "[") with false.
      change (delimiter_of "[") with (Punct TLBracket). cbv iota.
      rewrite scan_newline_indent, Hx by apply boundary_more.
      rewrite (scan_more (dump_to (S level)) tokens_to level "]" TRBracket);
        [now destruct (scan k) | reflexivity | reflexivity |].
      eapply Forall_impl; [| exact Hxs]. intros y Hy k'. apply Hy.
  - assert (IH' : Forall
                    (fun m => forall level k, boundary k ->
                       scan (dump_to level (snd m) k)
                         = add_tokens (tokens_to (snd m)) (scan k)) members).
    { refine (Forall_forallb _ _ _ _ Hv).
      eapply Forall_impl; [| exact IH]. intros m Hm Hvm.
      apply andb_prop in Hvm. apply Hm, Hvm. }
    clear IH Hv.
    destruct members as [| m ms]; cbn [dump_to tokens_to].
    + cbn. now destruct (scan k).
    + inversion IH' as [| m' ms' Hm Hms]; subst.
      cbv zeta. cbn [scan]. change (atom_char "{") with false.
      change (delimiter_of "{") with (Punct TLBrace). cbv iota.
      rewrite scan_newline_indent, scan_quote.
      assert (Hmember : forall (m0 : string * json_value) (k' : string),
                 (forall level' k'', boundary k'' ->
                    scan (dump_to level' (snd m0) k'')
                      = add_tokens (tokens_to (snd m0)) (scan k'')) ->
                 boundary k' ->
                 scan (String ":" (String " " (dump_to (S level) (snd m0) k')))
                   = add_tokens (fun toks => TColon :: tokens_to (snd m0) toks)
                                (scan k')).
      { intros m0 k' H0 Hk'. cbn [scan]. change (atom_char ":") with false.
        change (delimiter_of ":") with (Punct TColon).
        change (atom_char " ") with false.
        change (delimiter_of " ") with Blank. cbv iota.
        rewrite H0 by assumption. now destruct (scan k'). }
      rewrite (Hmember m _ Hm) by apply boundary_more.
      rewrite (scan_more
                 (fun (m0 : string * json_value) (k0 : string) =>
                    quote_to (fst m0)
                      (String ":" (String " " (dump_to (S level) (snd m0) k0))))
                 (fun (m0 : string * json_value) (k0 : list token) =>
                    TStr (fst m0) :: TColon :: tokens_to (snd m0) k0)
                 level "}" TRBrace);
        [now destruct (scan k) | reflexivity | reflexivity |].
      eapply Forall_impl; [| exact Hms]. intros m0 H0 k' Hk'.
      rewrite scan_quote, (Hmember m0 k' H0 Hk'). now destruct (scan k').
Qed.

(** The text is well-formed UTF-8. *)

Lemma utf8_run_app (s k : string) (st : utf8_state) :
  utf8_run st (s ++ k)
    = match utf8_run st s with
      | Some st' => utf8_run st' k
      | None => None
      end.
Proof.
  revert st. induction s as [| c s IH]; intros st; cbn [append utf8_run].
  - reflexivity.
  - destruct (utf8_step st c); [apply IH | reflexivity].
Qed.

Lemma utf8_step_escape (st st' : utf8_state) (c : ascii) :
  utf8_step st c = Some st' -> utf8_run st (escape_char c) = Some st'.
Proof.
  destruct st; destruct c as [[|] [|] [|] [|] [|] [|] [|] [|]];
    intros H; try discriminate H; exact H.
Qed.

Lemma utf8_run_escape (s k : string) :
  forall st st', utf8_run st s = Some st' ->
    utf8_run st (escape_to s k) = utf8_run st' k.
Proof.
  induction s as [| c s IH]; intros st st' Hs; cbn [utf8_run escape_to] in *.
  - now injection Hs as ->.
  - destruct (utf8_step st c) as [st1 |] eqn:Hc; [| discriminate].
    rewrite utf8_run_app, (utf8_step_escape _ _ _ Hc). now apply IH.
Qed.

Lemma utf8_quote (s k : string) :
  utf8 s = true -> utf8_run Start (quote_to s k) = utf8_run Start k.
Proof.
  unfold utf8, quote_to. intros Hs.
  destruct (utf8_run Start s) as [[] |] eqn:Hrun; try discriminate.
  change (utf8_run Start (String dquote (escape_to s (String dquote k))))
    with (utf8_run Start (escape_to s (String dquote k))).
  now rewrite (utf8_run_escape s _ _ _ Hrun).
Qed.

Lemma utf8_atom_char (c : ascii) :
  atom_char c = true -> utf8_step Start c = Some Start.
Proof.
  destruct c as [[|] [|] [|] [|] [|] [|] [|] [|]];
    intros H; try discriminate H; reflexivity.
Qed.

Lemma utf8_all_atom (t k : string) :
  all_atom t = true -> utf8_run Start (t ++ k) = utf8_run Start k.
Proof.
  induction t as [| c t IH]; cbn [all_atom append utf8_run]; intros Ht.
  - reflexivity.
  - apply andb_prop in Ht. destruct Ht as [Hc Ht].
    rewrite (utf8_atom_char c Hc). now apply IH.
Qed.

Lemma utf8_print_int (n : Z) (k : string) :
  utf8_run Start (print_int n ++ k) = utf8_run Start k.
Proof.
  apply utf8_all_atom. unfold print_int.
  destruct (Z.to_int n); cbn [NilEmpty.string_of_int all_atom];
    [| change (atom_char "-") with true; cbn [andb]]; apply all_atom_uint.
Qed.

Lemma utf8_spaces (n : nat) (k : string) :
  utf8_run Start (spaces n k) = utf8_run Start k.
Proof. induction n as [| n IH]; [reflexivity | exact IH]. Qed.

Lemma utf8_newline_indent (level : nat) (k : string) :
  utf8_run Start (newline_indent level k) = utf8_run Start k.
Proof. unfold newline_indent. cbn [utf8_run]. apply utf8_spaces. Qed.

Lemma utf8_more {A : Type} (item_to : A -> string -> string)
    (level : nat) (close : ascii) (l : list A) (k : string) :
  utf8_step Start close = Some Start ->
  Forall (fun y => forall k',
            utf8_run Start (item_to y k') = utf8_run Start k') l ->
  utf8_run Start (more_to item_to level close l k) = utf8_run Start k.
Proof.
  intros Hclose. induction 1 as [| y l Hy _ IH]; cbn [more_to].
  - rewrite utf8_newline_indent. cbn [utf8_run]. now rewrite Hclose.
  - change (utf8_run Start (String "," ?r)) with (utf8_run Start r).
    cbn [utf8_run]. change (utf8_step Start ",") with (Some Start). cbv iota.
    now rewrite utf8_newline_indent, Hy.
Qed.

Lemma utf8_dump (v : json_value) :
  valid_json v = true ->
  forall (level : nat) (k : string),
    utf8_run Start (dump_to level v k) = utf8_run Start k.
Proof.
  induction v as [| b | n | literal | s | items IH | members IH]
    using json_nested_ind; intros Hv level k; cbn [valid_json] in Hv.
  - reflexivity.
  - destruct b; reflexivity.
  - apply utf8_print_int.
  - discriminate Hv.
  - now apply utf8_quote.
  - pose proof (Forall_forallb _ _ _ IH Hv) as IH'. clear IH Hv.
    destruct items as [| x xs]; [reflexivity |].
    inversion IH' as [| x' xs' Hx Hxs]; subst.
    cbn [dump_to utf8_run]. change (utf8_step Start "[") with (Some Start).
    cbv iota. rewrite utf8_newline_indent, Hx.
    apply utf8_more; [reflexivity |].
    eapply Forall_impl; [| exact Hxs]. intros y Hy k'. apply Hy.
  - assert (IH' : Forall
                    (fun m => forall k,
                       utf8_run Start
                         (quote_to (fst m)
                            (String ":" (String " " (dump_to (S level) (snd m) k))))
                       = utf8_run Start k) members).
    { refine (Forall_forallb _ _ _ _ Hv).
      eapply Forall_impl; [| exact IH]. intros m Hm Hvm k'.
      apply andb_prop in Hvm. destruct Hvm as [Hkey Hvm].
      rewrite (utf8_quote _ _ Hkey).
      change (utf8_run Start (String ":" (String " " ?r)))
        with (utf8_run Start r).
      now apply Hm. }
    clear IH Hv.
    destruct members as [| m ms]; [reflexivity |].
    inversion IH' as [| m' ms' Hm Hms]; subst.
    cbn [dump_to]. cbv zeta. cbn [utf8_run].
    change (utf8_step Start "{") with (Some Start). cbv iota.
    rewrite utf8_newline_indent, Hm.
    apply utf8_more; [reflexivity | exact Hms].
Qed.

(** The tokens give the value back. *)

Lemma tokens_to_opens (v : json_value) (k : list token) :
  exists t rest, tokens_to v k = t :: rest /\ opens_value t.
Proof.
  destruct v as [| b | n | literal | s | [| x xs] | [| m ms]]; cbn [tokens_to];
    eexists; eexists; (split; [reflexivity | exact I]).
Qed.

Lemma parse_value_bracket (fuel : nat) (t : token) (rest : list token) :
  opens_value t ->
  parse_value (S fuel) (TLBracket :: t :: rest)
    = match parse_elements fuel (t :: rest) with
      | Some (items, r') => Some (JArr items, r')
      | None => None
      end.
Proof. destruct t; intros H; try contradiction; reflexivity. Qed.

Lemma parse_elements_step (fuel : nat) (ts : list token) (x : json_value)
    (k : list token) :
  parse_value fuel ts = Some (x, k) ->
  parse_elements (S fuel) ts
    = match k with
      | TComma :: r =>
          match parse_elements fuel r with
          | Some (items, r') => Some (x :: items, r')
          | None => None
          end
      | TRBracket :: r => Some ([x], r)
      | _ => None
      end.
Proof. intros H. cbn [parse_elements]. now rewrite H. Qed.

Lemma parse_members_step (fuel : nat) (key : string) (ts : list token)
    (x : json_value) (k : list token) :
  parse_value fuel ts = Some (x, k) ->
  parse_members (S fuel) (TStr key :: TColon :: ts)
    = match k with
      | TComma :: r =>
          match parse_members fuel r with
          | Some (members, r') => Some ((key, x) :: members, r')
          | None => None
          end
      | TRBrace :: r => Some ([(key, x)], r)
      | _ => None
      end.
Proof. intros H. cbn [parse_members]. now rewrite H. Qed.

Lemma parse_tokens (v : json_value) :
  forall (fuel : nat) (k : list token),
    (json_size v <= fuel)%nat ->
    parse_value fuel (tokens_to v k) = Some (v, k).
Proof.
  induction v as [| b | n | literal | s | items IH | members IH] using json_nested_ind;
    intros fuel k Hfuel; cbn [json_size] in Hfuel.
  1-5: destruct fuel as [| fuel]; [lia | reflexivity].
  - destruct fuel as [| fuel]; [lia |].
    destruct items as [| x xs]; [reflexivity |].
    cbn [tokens_to].
    destruct (tokens_to_opens x (more_tokens tokens_to TRBracket xs k))
      as (t & rest & Ht & Hopen).
    rewrite Ht, (parse_value_bracket fuel t rest Hopen), <- Ht. clear t rest Ht Hopen.
    assert (Hitems : parse_elements fuel
                       (tokens_to x (more_tokens tokens_to TRBracket xs k))
                     = Some (x :: xs, k)).
    { apply le_S_n in Hfuel. clear -IH Hfuel.
      revert x fuel IH Hfuel. induction xs as [| y ys IHys];
        intros x fuel IH Hfuel; cbn [items_size] in Hfuel;
        inversion IH as [| x' xs' Hx Hxs]; subst;
        (destruct fuel as [| fuel]; [lia |]).
      - rewrite (parse_elements_step fuel _ x (TRBracket :: k));
          [reflexivity | apply Hx; lia].
      - cbn [more_tokens].
        rewrite (parse_elements_step fuel _ x
                   (TComma :: tokens_to y (more_tokens tokens_to TRBracket ys k)));
          [| apply Hx; lia].
        rewrite (IHys y fuel Hxs); [reflexivity |].
        cbn [items_size]. lia. }
    now rewrite Hitems.
  - destruct fuel as [| fuel]; [lia |].
    destruct members as [| m ms]; [reflexivity |].
    cbn [tokens_to]. cbv zeta.
    change (parse_value (S fuel)
              (TLBrace :: TStr (fst m) :: TColon ::
               tokens_to (snd m)
                 (more_tokens
                    (fun (m0 : string * json_value) (k0 : list token) =>
                       TStr (fst m0) :: TColon :: tokens_to (snd m0) k0)
                    TRBrace ms k)))
      with (match parse_members fuel
                    (TStr (fst m) :: TColon ::
                     tokens_to (snd m)
                       (more_tokens
                          (fun (m0 : string * json_value) (k0 : list token) =>
                             TStr (fst m0) :: TColon :: tokens_to (snd m0) k0)
                          TRBrace ms k)) with
            | Some (members, r') => Some (JObj members, r')
            | None => None
            end).
    assert (Hmembers : parse_members fuel
                         (TStr (fst m) :: TColon ::
                          tokens_to (snd m)
                            (more_tokens
                               (fun (m0 : string * json_value) (k0 : list token) =>
                                  TStr (fst m0) :: TColon :: tokens_to (snd m0) k0)
                               TRBrace ms k))
                       = Some (m :: ms, k)).
    { apply le_S_n in Hfuel. clear -IH Hfuel.
      revert m fuel IH Hfuel. induction ms as [| y ys IHys];
        intros m fuel IH Hfuel; cbn [items_size] in Hfuel;
        inversion IH as [| m' ms' Hm Hms]; subst;
        (destruct fuel as [| fuel]; [lia |]).
      - rewrite (parse_members_step fuel (fst m) _ (snd m) (TRBrace :: k));
          [now destruct m | apply Hm; lia].
      - cbn [more_tokens].
        rewrite (parse_members_step fuel (fst m) _ (snd m)
                   (TComma :: TStr (fst y) :: TColon ::
                    tokens_to (snd y)
                      (more_tokens
                         (fun (m0 : string * json_value) (k0 : list token) =>
                            TStr (fst m0) :: TColon :: tokens_to (snd m0) k0)
                         TRBrace ys k)));
          [| apply Hm; lia].
        rewrite (IHys y fuel Hms); [now destruct m |].
        cbn [items_size]. lia. }
    now rewrite Hmembers.
Qed.

Lemma more_tokens_length {A : Type} (size : A -> nat)
    (item_tokens : A -> list token -> list token) (close : token)
    (l : list A) (k : list token) :
  Forall (fun y => forall k', (size y + List.length k' <= List.length (item_tokens y k'))%nat) l ->
  (S (items_size size l + List.length k)
   <= List.length (more_tokens item_tokens close l k))%nat.
Proof.
  induction 1 as [| y l Hy _ IH]; cbn [items_size more_tokens List.length].
  - lia.
  - specialize (Hy (more_tokens item_tokens close l k)). lia.
Qed.

Lemma tokens_to_length (v : json_value) :
  forall k, (json_size v + List.length k <= List.length (tokens_to v k))%nat.
Proof.
  induction v as [| b | n | literal | s | items IH | members IH] using json_nested_ind;
    intros k; cbn [json_size tokens_to].
  1-5: simpl; lia.
  - destruct items as [| x xs]; [simpl; lia |].
    inversion IH as [| x' xs' Hx Hxs]; subst.
    cbn [items_size List.length].
    specialize (Hx (more_tokens tokens_to TRBracket xs k)).
    pose proof (more_tokens_length json_size tokens_to TRBracket xs k Hxs).
    lia.
  - destruct members as [| m ms]; [simpl; lia |].
    inversion IH as [| m' ms' Hm Hms]; subst.
    cbv zeta. cbn [items_size List.length].
    pose proof (more_tokens_length (fun m0 => json_size (snd m0))
                  (fun (m0 : string * json_value) (k0 : list token) =>
                     TStr (fst m0) :: TColon :: tokens_to (snd m0) k0)
                  TRBrace ms k) as Hlen.
    specialize (Hm (more_tokens
                      (fun (m0 : string * json_value) (k0 : list token) =>
                         TStr (fst m0) :: TColon :: tokens_to (snd m0) k0)
                      TRBrace ms k)).
    assert (Hms' : Forall
                     (fun y : string * json_value =>
                        forall k' : list token,
                          (json_size (snd y) + List.length k'
                           <= List.length (TStr (fst y) :: TColon :: tokens_to (snd y) k'))%nat)
                     ms).
    { eapply Forall_impl; [| exact Hms]. intros y Hy k'.
      specialize (Hy k'). cbn [List.length]. lia. }
    specialize (Hlen Hms'). lia.
Qed.

Theorem loads_dumps (v : json_value) :
  valid_json v = true -> loads (dumps v) = Some v.
Proof.
  intros Hv. unfold loads, dumps, utf8.
  rewrite (utf8_dump v Hv 0 ""). cbn [utf8_run].
  rewrite (scan_dump v Hv 0 "" I). cbn [scan add_tokens].
  rewrite parse_tokens; [reflexivity |].
  pose proof (tokens_to_length v []). simpl in H. lia.
Qed.

(** Documents. *)


Lemma all_some_map {A B : Type} (f : A -> B) (g : B -> option A) (l : list A) :
  (forall x, g (f x) = Some x) -> all_some g (map f l) = Some l.
Proof.
  intros H. induction l as [| x l IH]; cbn [map all_some].
  - reflexivity.
  - now rewrite H, IH.
Qed.

Lemma decode_encode_user (u : User.t) : decode_user (encode_user u) = Some u.
Proof. destruct u. reflexivity. Qed.

Lemma decode_encode_comment (c : Comment.t) :
  decode_comment (encode_comment c) = Some c.
Proof. destruct c. reflexivity. Qed.

Lemma decode_encode_post (p : Post.t) : decode_post (encode_post p) = Some p.
Proof.
  destruct p as [post_id user_id username content image_path likes
                   liked_by comments created_at].
  destruct image_path, liked_by as [l |], comments as [cs |];
    cbn -[decode_comment encode_comment];
    rewrite ?(all_some_map JInt as_int) by reflexivity;
    rewrite ?(all_some_map encode_comment decode_comment)
      by apply decode_encode_comment;
    reflexivity.
Qed.

Lemma decode_encode (data : Document) : decode (encode data) = Some data.
Proof.
  destruct data as [current_user posts users notifications].
  cbn -[decode_user encode_user decode_post encode_post].
  rewrite decode_encode_user.
  rewrite (all_some_map encode_post decode_post) by apply decode_encode_post.
  rewrite (all_some_map encode_user decode_user) by apply decode_encode_user.
  rewrite (all_some_map JStr as_str) by reflexivity.
  reflexivity.
Qed.

Lemma python_json_round_trip rejected elsewhere (data : Document) :
  valid_document data = true ->
  @json_load (python_json rejected elsewhere)
     (@json_dump (python_json rejected elsewhere) data) = Ok data.
Proof.
  intros Hv. cbn [json_load json_dump python_json].
  rewrite (loads_dumps _ Hv), decode_encode. reflexivity.
Qed.

(** The layout of [indent=2] on a value without strings. *)
Example dumps_layout :
  dumps (JArr [JInt 1; JArr []; JObj []; JBool true; JNull; JInt (-5);
               JArr [JInt 42; JInt 28]])
  = "[
  1,
  [],
  {},
  true,
  null,
  -5,
  [
    42,
    28
  ]
]".
Proof. reflexivity. Qed.

(** With any JSON library: for a document the library reads back from
    the text it writes for it, and a write that goes through,
    [save_data] followed by [load_data] returns the document; the file
    then holds the text of the document and nothing is printed or
    shown. *)
Lemma round_trip_with {json : JsonLib} (data : Document) (w : World) :
  json_load (json_dump data) = Ok data ->
  disk_fault w = NoFault ->
  let r := (save_data data ;;; load_data) w in
  result r = Ok data /\
  data_file (world_after r) = Some (json_dump data) /\
  stdout (world_after r) = stdout w /\
  dialogs (world_after r) = dialogs w.
Proof.
  intros Hvalid Hfault r. subst r.
  unfold bind. rewrite save_data_run.
  rewrite (load_data_parsed _ (json_dump data) data).
  - unfold result, world_after, file_after_save, dialogs_of_save.
    cbn [fst snd data_file stdout dialogs]. rewrite Hfault.
    repeat split. apply app_nil_r.
  - cbn [data_file]. unfold file_after_save. now rewrite Hfault.
  - assumption.
Qed.

(** C6.  With Python's [json.dump] and [json.load]: for every valid
    document (strings of well-formed UTF-8, integers within the digit
    limit) and a write that goes through, [save_data] followed by
    [load_data] returns the document; the file then holds a text that
    [json.load] reads as the document, and nothing is printed or
    shown. *)
Theorem save_then_load (rejected : string -> exn)
    (elsewhere : json_value -> outcome Document)
    (data : Document) (w : World) :
  valid_document data = true ->
  disk_fault w = NoFault ->
  let r := (@save_data (python_json rejected elsewhere) data ;;;
            @load_data (python_json rejected elsewhere)) w in
  result r = Ok data /\
  (exists text v,
     data_file (world_after r) = Some text /\
     loads text = Some v /\ decode v = Some data) /\
  stdout (world_after r) = stdout w /\
  dialogs (world_after r) = dialogs w.
Proof.
  intros Hvalid Hfault.
  destruct (@round_trip_with (python_json rejected elsewhere) data w
              (python_json_round_trip rejected elsewhere data Hvalid) Hfault)
    as (Hresult & Hfile & Hout & Hdialogs).
  cbv zeta. repeat split; try assumption.
  exists (dumps (encode data)), (encode data).
  split; [exact Hfile | split].
  - now apply loads_dumps.
  - apply decode_encode.
Qed.

Lemma save_then_load_witness :
  let json :=
    python_json (fun _ => Exception "JSONDecodeError")
                (fun _ => Raise (Exception "KeyError")) in
  let r := (@save_data json seeded ;;; @load_data json)
             (sample_world (Some "old") NoFault) in
  result r = Ok seeded /\
  (exists text v,
     data_file (world_after r) = Some text /\
     loads text = Some v /\ decode v = Some seeded) /\
  stdout (world_after r) = [] /\
  dialogs (world_after r) = [].
Proof.
  apply (save_then_load (fun _ => Exception "JSONDecodeError")
           (fun _ => Raise (Exception "KeyError")) seeded
           (sample_world (Some "old") NoFault)); reflexivity.
Defined.

(** C8.  When the file exists and the JSON library rejects its text,
    [load_data] returns the seeded document and raises nothing, whatever
    happens to the write of the new file; the exception is printed. *)
Theorem load_data_corrupt_returns_default {json : JsonLib} (w : World)
    (text : string) (e : exn) :
  data_file w = Some text ->
  json_load text = Raise e ->
  result (load_data w) = Ok (default_data_at w) /\
  stdout (world_after (load_data w))
    = stdout w ++ [("Error loading data: " ++ str e)%string].
Proof.
  intros Hfile Hload. rewrite (load_data_rejected w text e Hfile Hload).
  split; reflexivity.
Qed.

Lemma load_data_corrupt_returns_default_witness :
  let w := sample_world (Some "{ not json") NoFault in
  result (@load_data (sample_json seeded) w) = Ok (default_data_at w) /\
  stdout (world_after (@load_data (sample_json seeded) w))
    = ["Error loading data: Expecting value: line 1 column 1 (char 0)"].
Proof.
  apply (@load_data_corrupt_returns_default (sample_json seeded)
           (sample_world (Some "{ not json") NoFault) "{ not json"
           (Exception "Expecting value: line 1 column 1 (char 0)"));
    reflexivity.
Defined.

(** C10.  When the file exists and the JSON library rejects its text,
    [load_data] also writes: with a write that goes through, the file
    holds the text of the seeded document afterwards, in place of the
    rejected text. *)
Theorem load_data_corrupt_overwrites {json : JsonLib} (w : World)
    (text : string) (e : exn) :
  data_file w = Some text ->
  json_load text = Raise e ->
  disk_fault w = NoFault ->
  data_file (world_after (load_data w)) = Some (json_dump (default_data_at w)).
Proof.
  intros Hfile Hload Hfault. rewrite (load_data_rejected w text e Hfile Hload).
  unfold world_after, file_after_save. cbn [snd data_file]. now rewrite Hfault.
Qed.

Lemma load_data_corrupt_overwrites_witness :
  data_file (sample_world (Some "{ not json") NoFault) = Some "{ not json" /\
  data_file (world_after (@load_data (sample_json seeded)
                            (sample_world (Some "{ not json") NoFault)))
    = Some "{...}".
Proof.
  split; [reflexivity |].
  apply (@load_data_corrupt_overwrites (sample_json seeded)
           (sample_world (Some "{ not json") NoFault) "{ not json"
           (Exception "Expecting value: line 1 column 1 (char 0)"));
    reflexivity.
Defined.

(** C9 (as amended).  [save_data] always returns to its caller.  When
    the write goes through, the file holds the whole text of the document
    and nothing is shown.  When the file cannot be opened, the file is as
    before and an error box shows the exception.  When writing fails
    part-way, the file holds the part of the text written so far and an
    error box shows the exception.  Nothing else changes. *)
Theorem save_data_effect {json : JsonLib} (data : Document) (w : World) :
  let r := save_data data w in
  result r = Ok tt /\
  match disk_fault w with
  | NoFault =>
      data_file (world_after r) = Some (json_dump data) /\
      dialogs (world_after r) = dialogs w
  | OpenFails e =>
      data_file (world_after r) = data_file w /\
      dialogs (world_after r)
        = dialogs w ++ [showerror "Error" ("Failed to save data: " ++ str e)]
  | WriteFails written e =>
      data_file (world_after r) = Some (prefix written (json_dump data)) /\
      dialogs (world_after r)
        = dialogs w ++ [showerror "Error" ("Failed to save data: " ++ str e)]
  end /\
  disk_fault (world_after r) = disk_fault w /\
  clock (world_after r) = clock w /\
  ticks (world_after r) = ticks w /\
  stdout (world_after r) = stdout w.
Proof.
  intros r. subst r. rewrite save_data_run.
  unfold result, world_after, file_after_save, dialogs_of_save.
  cbn [fst snd data_file disk_fault clock ticks stdout dialogs].
  destruct (disk_fault w) as [| e | written e]; rewrite ?app_nil_r;
    repeat split.
Qed.

(** C9 as stated fails when the disk fills up while the text is written:
    the file had "old", the text of the document is "{...}", and after
    the failed [save_data] the file holds "{." (neither of the two),
    while [save_data] has returned normally. *)
Lemma save_data_leaves_partial_file :
  let w := sample_world (Some "old")
             (WriteFails 2 (Exception "[Errno 28] No space left on device")) in
  let r := @save_data (sample_json seeded) seeded w in
  data_file w = Some "old" /\
  @json_dump (sample_json seeded) seeded = "{...}" /\
  data_file (world_after r) = Some "{." /\
  result r = Ok tt /\
  dialogs (world_after r)
    = [showerror "Error"
         "Failed to save data: [Errno 28] No space left on device"].
Proof. repeat split. Qed.

(** ** The handlers, end to end

    With a file the JSON library reads, a write that goes through and a
    new document the library reads back, each handler leaves in the file
    the text of the document its mutation makes of the loaded one. *)

Lemma save_then_refresh {json : JsonLib} (data : Document) (w : World) :
  json_load (json_dump data) = Ok data ->
  disk_fault w = NoFault ->
  (save_data data ;;; refresh_feed) w
    = (Ok tt, mkWorld (Some (json_dump data)) NoFault (clock w) (ticks w)
                      (stdout w) (dialogs w)).
Proof.
  intros Hvalid Hfault. unfold bind at 1. rewrite save_data_run.
  unfold refresh_feed, bind.
  rewrite (load_data_parsed _ (json_dump data) data).
  - unfold ret, file_after_save, dialogs_of_save. rewrite Hfault.
    now rewrite app_nil_r.
  - cbn [data_file]. unfold file_after_save. now rewrite Hfault.
  - assumption.
Qed.

Lemma bind_run {A B : Type} (c : Py A) (k : A -> Py B) (w w' : World) (a : A) :
  c w = (Ok a, w') -> bind c k w = k a w'.
Proof. unfold bind. now intros ->. Qed.

(** X8.  [_toggle_like], end to end: with a file the JSON library reads,
    a write that goes through and a new document the library reads back,
    the file holds afterwards the text of the loaded document with the
    like of the current user toggled on the post; the clock is not read
    and nothing is printed or shown. *)
Lemma toggle_like_handler {json : JsonLib} (w : World) (text : string)
    (data : Document) (post_id : Z) :
  let data' := toggle_like data post_id (User.user_id (current_user data)) in
  data_file w = Some text ->
  json_load text = Ok data ->
  json_load (json_dump data') = Ok data' ->
  disk_fault w = NoFault ->
  PostCard._toggle_like post_id w
    = (Ok tt, mkWorld (Some (json_dump data')) NoFault (clock w) (ticks w)
                      (stdout w) (dialogs w)).
Proof.
  intros data' Hfile Hload Hvalid Hfault. unfold PostCard._toggle_like.
  rewrite (bind_run _ _ _ _ _ (load_data_parsed w text data Hfile Hload)).
  cbv zeta. fold data'. now apply save_then_refresh.
Qed.

Lemma save_data_ok {json : JsonLib} (data : Document) (w : World) :
  disk_fault w = NoFault ->
  save_data data w = (Ok tt, set_data_file (Some (json_dump data)) w).
Proof.
  intros Hfault. rewrite save_data_run.
  unfold file_after_save, dialogs_of_save, set_data_file.
  now rewrite Hfault, app_nil_r.
Qed.

Lemma refresh_feed_parsed {json : JsonLib} (w : World) (text : string)
    (data : Document) :
  data_file w = Some text ->
  json_load text = Ok data ->
  refresh_feed w = (Ok tt, w).
Proof.
  intros Hfile Hload. unfold refresh_feed.
  now rewrite (bind_run _ _ _ _ _ (load_data_parsed w text data Hfile Hload)).
Qed.

Lemma add_comment_run {json : JsonLib} (w : World) (text : string)
    (data : Document) (post_id : Z) (comment_text : string) :
  let found := find_post post_id (posts data) in
  let data' :=
    match found with
    | Some _ => add_comment data post_id (current_user data) comment_text
                            (clock w (ticks w))
    | None => data
    end in
  comment_text <> "" ->
  data_file w = Some text ->
  json_load text = Ok data ->
  json_load (json_dump data') = Ok data' ->
  disk_fault w = NoFault ->
  CommentsPopup._add_comment post_id comment_text w
    = (Ok tt,
       mkWorld (Some (json_dump data')) NoFault (clock w)
               (match found with Some _ => S (ticks w) | None => ticks w end)
               (stdout w) (dialogs w ++ [showinfo "Success" "Comment added!"])).
Proof.
  intros found data' Htext Hfile Hload Hvalid Hfault.
  unfold CommentsPopup._add_comment.
  apply String.eqb_neq in Htext. rewrite Htext.
  rewrite (bind_run _ _ _ _ _ (load_data_parsed w text data Hfile Hload)).
  cbv zeta. fold found. subst data'.
  destruct w as [file fault clk n out dlg]. cbn in Hfault. subst fault.
  destruct found as [post |].
  - erewrite bind_run by reflexivity.
    erewrite bind_run by (apply save_data_ok; reflexivity).
    erewrite bind_run by reflexivity.
    erewrite refresh_feed_parsed by (try reflexivity; exact Hvalid).
    reflexivity.
  - erewrite bind_run by reflexivity.
    erewrite bind_run by (apply save_data_ok; reflexivity).
    erewrite bind_run by reflexivity.
    erewrite refresh_feed_parsed by (try reflexivity; exact Hvalid).
    reflexivity.
Qed.

(** X11.  [_create_post], end to end: with a caption, a file the JSON
    library reads, a write that goes through and a new document the
    library reads back, the file holds afterwards the text of the loaded
    document with the new post of the current user in front, stamped with
    the reading of the clock made after the one for the name of the image
    copy (if an image was chosen); the success box is shown. *)
Lemma create_post_handler {json : JsonLib} (w : World) (text : string)
    (data : Document) (caption : string) (saved_image_path : option string) :
  let readings :=
    match saved_image_path with Some _ => 2%nat | None => 1%nat end in
  let now := clock w (pred readings + ticks w)%nat in
  let data' :=
    create_post data (current_user data) caption saved_image_path now in
  let saved_image :=
    match saved_image_path with Some path => Some (Ok path) | None => None end in
  caption <> "" ->
  data_file w = Some text ->
  json_load text = Ok data ->
  json_load (json_dump data') = Ok data' ->
  disk_fault w = NoFault ->
  AddPostPopup._create_post caption saved_image w
    = (Ok tt,
       mkWorld (Some (json_dump data')) NoFault (clock w)
               (readings + ticks w) (stdout w)
               (dialogs w ++ [showinfo "Success" "Post created successfully!"])).
Proof.
  intros readings now data' saved_image Htext Hfile Hload Hvalid Hfault.
  unfold AddPostPopup._create_post.
  apply String.eqb_neq in Htext. rewrite Htext.
  rewrite (bind_run _ _ _ _ _ (load_data_parsed w text data Hfile Hload)).
  cbv zeta. subst data' saved_image now readings.
  destruct w as [file fault clk n out dlg]. cbn in Hfault. subst fault.
  destruct saved_image_path as [path |].
  - erewrite bind_run by reflexivity.
    erewrite bind_run by reflexivity.
    erewrite bind_run by (apply save_data_ok; reflexivity).
    erewrite bind_run by reflexivity.
    erewrite refresh_feed_parsed by (try reflexivity; exact Hvalid).
    reflexivity.
  - erewrite bind_run by reflexivity.
    erewrite bind_run by (apply save_data_ok; reflexivity).
    erewrite bind_run by reflexivity.
    erewrite refresh_feed_parsed by (try reflexivity; exact Hvalid).
    reflexivity.
Qed.

(** * Beyond the claims *)

(** ** Loading *)

Lemma load_data_total {json : JsonLib} (w : World) :
  exists data w', load_data w = (Ok data, w').
Proof.
  destruct (data_file w) as [text |] eqn:Hfile.
  - destruct (json_load text) as [data | e] eqn:Hload.
    + exists data, w. eapply load_data_parsed; eassumption.
    + eexists. eexists. eapply load_data_rejected; eassumption.
  - eexists. eexists. now apply load_data_missing.
Qed.

Lemma refresh_feed_total {json : JsonLib} (w : World) :
  exists w', refresh_feed w = (Ok tt, w').
Proof.
  destruct (load_data_total w) as (data & w' & H). exists w'.
  unfold refresh_feed. now rewrite (bind_run _ _ _ _ _ H).
Qed.

(** X2.  On the first run, when there is no file, [load_data] returns
    the seeded document: one user and three posts with the ids 1, 2 and
    3, stamped with the next eight readings of the clock.  When the write
    goes through the file holds its text afterwards. *)
Theorem load_data_first_run {json : JsonLib} (w : World) :
  data_file w = None ->
  let r := load_data w in
  result r = Ok (default_data_at w) /\
  post_ids (default_data_at w) = [1; 2; 3] /\
  map User.user_id (users (default_data_at w)) = [1] /\
  User.user_id (current_user (default_data_at w)) = 1 /\
  ticks (world_after r) = (8 + ticks w)%nat /\
  (disk_fault w = NoFault ->
   data_file (world_after r) = Some (json_dump (default_data_at w))).
Proof.
  intros Hfile r. subst r. rewrite (load_data_missing w Hfile).
  unfold result, world_after, file_after_save.
  cbn [fst snd data_file ticks].
  repeat split. intros Hfault. now rewrite Hfault.
Qed.

Lemma load_data_first_run_witness :
  let w := sample_world None NoFault in
  let r := @load_data (sample_json seeded) w in
  result r = Ok (default_data_at w) /\
  post_ids (default_data_at w) = [1; 2; 3] /\
  map User.user_id (users (default_data_at w)) = [1] /\
  User.user_id (current_user (default_data_at w)) = 1 /\
  ticks (world_after r) = 8%nat /\
  (disk_fault w = NoFault ->
   data_file (world_after r) = Some "{...}").
Proof.
  apply (@load_data_first_run (sample_json seeded) (sample_world None NoFault)).
  reflexivity.
Defined.

(** X3.  On a file the JSON library reads, [load_data] is a pure read:
    it returns the document of the file and leaves the file, the clock,
    the output and the screen as they were. *)
Theorem load_data_reads_only {json : JsonLib} (w : World) (text : string)
    (data : Document) :
  data_file w = Some text ->
  json_load text = Ok data ->
  load_data w = (Ok data, w).
Proof.
  intros Hfile Hload. unfold load_data.
  unfold bind at 1. unfold os_path_exists. rewrite Hfile.
  unfold try_except, bind, read_text, lift. now rewrite Hfile, Hload.
Qed.

Lemma load_data_reads_only_witness :
  @load_data (sample_json seeded) (sample_world (Some "{...}") NoFault)
    = (Ok seeded, sample_world (Some "{...}") NoFault).
Proof.
  apply (@load_data_reads_only (sample_json seeded)
           (sample_world (Some "{...}") NoFault) "{...}" seeded);
    reflexivity.
Defined.

(** X4.  The document is seeded once: when there is no file, the write
    goes through and the JSON library reads the seeded document back, a
    second [load_data] returns the very document the first one made,
    with the same times, and reads the clock no more. *)
Theorem load_data_seeds_once {json : JsonLib} (w : World) :
  data_file w = None ->
  disk_fault w = NoFault ->
  json_load (json_dump (default_data_at w)) = Ok (default_data_at w) ->
  let r := (d1 <- load_data ;; d2 <- load_data ;; ret (d1, d2)) w in
  result r = Ok (default_data_at w, default_data_at w) /\
  ticks (world_after r) = (8 + ticks w)%nat /\
  data_file (world_after r) = Some (json_dump (default_data_at w)).
Proof.
  intros Hfile Hfault Hvalid r. subst r.
  rewrite (bind_run _ _ _ _ _ (load_data_missing w Hfile)).
  erewrite bind_run.
  2:{ apply load_data_parsed with (text := json_dump (default_data_at w));
      [| exact Hvalid].
      cbn [data_file]. unfold file_after_save. now rewrite Hfault. }
  unfold ret, result, world_after, file_after_save.
  cbn [fst snd data_file ticks]. rewrite Hfault. repeat split.
Qed.

Lemma load_data_seeds_once_witness :
  let w := sample_world None NoFault in
  let r := (d1 <- @load_data (sample_json (default_data_at w)) ;;
            d2 <- @load_data (sample_json (default_data_at w)) ;;
            ret (d1, d2)) w in
  result r = Ok (default_data_at w, default_data_at w) /\
  ticks (world_after r) = 8%nat /\
  data_file (world_after r) = Some "{...}".
Proof.
  apply (@load_data_seeds_once
           (sample_json (default_data_at (sample_world None NoFault)))
           (sample_world None NoFault)); reflexivity.
Defined.

(** X5.  When there is no file and the file cannot be created, every
    [load_data] seeds anew: the second call returns a document stamped
    with the eight readings of the clock after those of the first, there
    is still no file, and each call has shown the error of its write. *)
Theorem load_data_reseeds_when_unsaved {json : JsonLib} (w : World) (e : exn) :
  data_file w = None ->
  disk_fault w = OpenFails e ->
  let r := (d1 <- load_data ;; d2 <- load_data ;; ret (d1, d2)) w in
  let w1 := mkWorld None (OpenFails e) (clock w) (8 + ticks w) (stdout w)
                    (dialogs w
                     ++ [showerror "Error" ("Failed to save data: " ++ str e)]) in
  result r = Ok (default_data_at w, default_data_at w1) /\
  User.created_at (current_user (default_data_at w1)) = clock w (8 + ticks w)%nat /\
  data_file (world_after r) = None /\
  ticks (world_after r) = (16 + ticks w)%nat /\
  dialogs (world_after r)
    = dialogs w
      ++ [showerror "Error" ("Failed to save data: " ++ str e);
          showerror "Error" ("Failed to save data: " ++ str e)].
Proof.
  intros Hfile Hfault r w1. subst r.
  rewrite (bind_run _ _ _ _ _ (load_data_missing w Hfile)).
  unfold file_after_save, dialogs_of_save. rewrite Hfault, Hfile.
  fold w1.
  rewrite (bind_run _ _ _ _ _ (load_data_missing w1 eq_refl)).
  unfold ret, result, world_after, file_after_save, dialogs_of_save, w1.
  cbn [fst snd data_file disk_fault ticks dialogs clock stdout].
  rewrite <- app_assoc. repeat split.
Qed.

Lemma load_data_reseeds_when_unsaved_witness :
  let w := sample_world None (OpenFails (Exception "Permission denied")) in
  let r := (d1 <- @load_data (sample_json seeded) ;;
            d2 <- @load_data (sample_json seeded) ;; ret (d1, d2)) w in
  data_file (world_after r) = None /\
  ticks (world_after r) = 16%nat /\
  List.length (dialogs (world_after r)) = 2%nat.
Proof.
  destruct (@load_data_reseeds_when_unsaved (sample_json seeded)
              (sample_world None (OpenFails (Exception "Permission denied")))
              (Exception "Permission denied") eq_refl eq_refl)
    as (_ & _ & Hfile & Hticks & Hdialogs).
  split; [exact Hfile | split; [exact Hticks |]].
  cbv zeta in Hdialogs. now rewrite Hdialogs.
Defined.

(** ** The handlers *)

(** X1.  [load_data] raises nothing: whatever the file holds and
    whatever its own write runs into, it returns a document. *)
Theorem load_data_never_raises {json : JsonLib} (w : World) :
  exists data, result (load_data w) = Ok data.
Proof.
  destruct (load_data_total w) as (data & w' & H).
  exists data. now rewrite H.
Qed.

(** With any JSON library, each of the three handlers returns: an
    exception of the library, of the write or of the image copy is
    caught on the way. *)
Lemma handlers_return {json : JsonLib} (w : World) (post_id : Z)
    (comment_text caption : string) (saved_image : option (outcome string)) :
  result (PostCard._toggle_like post_id w) = Ok tt /\
  result (CommentsPopup._add_comment post_id comment_text w) = Ok tt /\
  result (AddPostPopup._create_post caption saved_image w) = Ok tt.
Proof.
  assert (Hsave : forall (data : Document) (k : Py unit) (w0 : World),
             (forall w1, exists w2, k w1 = (Ok tt, w2)) ->
             exists w2, (save_data data ;;; k) w0 = (Ok tt, w2)).
  { intros data k w0 Hk.
    rewrite (bind_run _ _ _ _ _ (save_data_run data w0)). apply Hk. }
  assert (Hinfo : forall (d : dialog) (w0 : World),
             exists w2, (messagebox d ;;; refresh_feed) w0 = (Ok tt, w2)).
  { intros d w0. erewrite bind_run by reflexivity. apply refresh_feed_total. }
  destruct (load_data_total w) as (data & w1 & Hload).
  split; [| split].
  - unfold PostCard._toggle_like. rewrite (bind_run _ _ _ _ _ Hload). cbv zeta.
    destruct (Hsave (toggle_like data post_id (User.user_id (current_user data)))
                    refresh_feed w1 refresh_feed_total) as (w2 & ->).
    reflexivity.
  - unfold CommentsPopup._add_comment.
    destruct (String.eqb comment_text ""); [reflexivity |].
    rewrite (bind_run _ _ _ _ _ Hload). cbv zeta.
    destruct (find_post post_id (posts data)).
    + erewrite bind_run by reflexivity.
      edestruct Hsave as (w2 & ->); [apply Hinfo | reflexivity].
    + erewrite bind_run by reflexivity.
      edestruct Hsave as (w2 & ->); [apply Hinfo | reflexivity].
  - unfold AddPostPopup._create_post.
    destruct (String.eqb caption ""); [reflexivity |].
    rewrite (bind_run _ _ _ _ _ Hload). cbv zeta.
    destruct saved_image as [[path | e] |].
    + erewrite bind_run by reflexivity. erewrite bind_run by reflexivity.
      edestruct Hsave as (w2 & ->); [apply Hinfo | reflexivity].
    + erewrite bind_run by reflexivity. reflexivity.
    + erewrite bind_run by reflexivity.
      edestruct Hsave as (w2 & ->); [apply Hinfo | reflexivity].
Qed.

(** X6.  With Python's [json.load], when there is no file, or the file
    holds a text [json.load] does not read or the text of a document:
    [_toggle_like], [_add_comment] and [_create_post] with no image
    chosen raise nothing, whatever the post, the texts entered and the
    fault met by the writes. *)
Theorem handlers_never_raise (rejected : string -> exn)
    (elsewhere : json_value -> outcome Document)
    (w : World) (post_id : Z) (comment_text caption : string) :
  document_or_rejected (data_file w) = true ->
  result (@PostCard._toggle_like (python_json rejected elsewhere) post_id w)
    = Ok tt /\
  result (@CommentsPopup._add_comment (python_json rejected elsewhere)
            post_id comment_text w)
    = Ok tt /\
  result (@AddPostPopup._create_post (python_json rejected elsewhere)
            caption None w)
    = Ok tt.
Proof.
  intros _.
  exact (@handlers_return (python_json rejected elsewhere) w post_id
           comment_text caption None).
Qed.

Lemma handlers_never_raise_witness :
  let json :=
    python_json (fun _ => Exception "JSONDecodeError")
                (fun _ => Raise (Exception "KeyError")) in
  let w := sample_world (Some (dumps (encode seeded)))
             (WriteFails 10 (Exception "No space left on device")) in
  document_or_rejected (data_file w) = true /\
  result (@PostCard._toggle_like json 1 w) = Ok tt /\
  result (@CommentsPopup._add_comment json 1 "Nice" w) = Ok tt /\
  result (@AddPostPopup._create_post json "Hello" None w) = Ok tt.
Proof.
  split; [vm_compute; reflexivity |].
  apply (handlers_never_raise (fun _ => Exception "JSONDecodeError")
           (fun _ => Raise (Exception "KeyError"))
           (sample_world (Some (dumps (encode seeded)))
              (WriteFails 10 (Exception "No space left on device")))
           1 "Nice" "Hello").
  vm_compute; reflexivity.
Defined.

(** X7.  When the copy of the chosen image fails, [_create_post] makes no
    post: on a file the JSON library reads, the file stays as it was,
    the error of the copy is shown, and the handler returns after the one
    reading of the clock made for the name of the copy. *)
Theorem create_post_image_failure {json : JsonLib} (w : World)
    (text : string) (data : Document) (caption : string) (e : exn) :
  caption <> "" ->
  data_file w = Some text ->
  json_load text = Ok data ->
  AddPostPopup._create_post caption (Some (Raise e)) w
    = (Ok tt,
       mkWorld (data_file w) (disk_fault w) (clock w) (S (ticks w)) (stdout w)
               (dialogs w
                ++ [showerror "Error" ("Failed to save image: " ++ str e)])).
Proof.
  intros Htext Hfile Hload. unfold AddPostPopup._create_post.
  apply String.eqb_neq in Htext. rewrite Htext.
  rewrite (bind_run _ _ _ _ _ (load_data_parsed w text data Hfile Hload)).
  reflexivity.
Qed.

Lemma create_post_image_failure_witness :
  @AddPostPopup._create_post (sample_json seeded) "hello"
     (Some (Raise (Exception "cannot identify image file")))
     (sample_world (Some "{...}") NoFault)
  = (Ok tt,
     mkWorld (Some "{...}") NoFault (fun _ => "2024-01-01T00:00:00") 1 []
       [showerror "Error" "Failed to save image: cannot identify image file"]).
Proof.
  apply (@create_post_image_failure (sample_json seeded)
           (sample_world (Some "{...}") NoFault) "{...}" seeded "hello"
           (Exception "cannot identify image file"));
    [discriminate | reflexivity | reflexivity].
Defined.

Lemma toggle_like_handler_witness :
  let before := sample_document [sample_post 1 2 []] in
  let after := sample_document [sample_post 1 3 [5]] in
  @PostCard._toggle_like (sample_json2 before after) 1
     (sample_world (Some "{before}") NoFault)
  = (Ok tt, sample_world (Some "{after}") NoFault).
Proof.
  apply (@toggle_like_handler
           (sample_json2 (sample_document [sample_post 1 2 []])
                         (sample_document [sample_post 1 3 [5]]))
           (sample_world (Some "{before}") NoFault) "{before}"
           (sample_document [sample_post 1 2 []]) 1); reflexivity.
Defined.

Lemma create_post_handler_witness :
  let before := sample_document [sample_post 1 2 []] in
  let after :=
    sample_document
      [ Post.mk 2 5 "alice" "hi" (Some "blog_images/x.png") 0 (Some []) (Some [])
                "2024-01-01T00:00:00";
        sample_post 1 2 [] ] in
  @AddPostPopup._create_post (sample_json2 before after) "hi"
     (Some (Ok "blog_images/x.png")) (sample_world (Some "{before}") NoFault)
  = (Ok tt,
     mkWorld (Some "{after}") NoFault (fun _ => "2024-01-01T00:00:00") 2 []
             [showinfo "Success" "Post created successfully!"]).
Proof.
  apply (@create_post_handler
           (sample_json2
              (sample_document [sample_post 1 2 []])
              (sample_document
                 [ Post.mk 2 5 "alice" "hi" (Some "blog_images/x.png") 0
                           (Some []) (Some []) "2024-01-01T00:00:00";
                   sample_post 1 2 [] ]))
           (sample_world (Some "{before}") NoFault) "{before}"
           (sample_document [sample_post 1 2 []]) "hi"
           (Some "blog_images/x.png"));
    [discriminate | reflexivity | reflexivity | reflexivity | reflexivity].
Defined.

(** X9.  [_add_comment], end to end, when a post has the id: with a
    text, a file the JSON library reads, a write that goes through and a
    new document the library reads back, the file holds afterwards the
    text of the loaded document with one comment of the current user,
    stamped with the next reading of the clock, after the comments of the
    first post with the id; the success box is shown. *)
Theorem add_comment_handler_found {json : JsonLib} (w : World) (text : string)
    (data : Document) (post_id : Z) (comment_text : string)
    (before : list Post.t) (post : Post.t) (after : list Post.t) :
  let user := current_user data in
  let c := Comment.mk (User.user_id user) (User.username user) comment_text
                      (clock w (ticks w)) in
  let data' :=
    set_posts (before
               ++ Post.set_comments (Post.get_comments post ++ [c]) post
               :: after) data in
  comment_text <> "" ->
  data_file w = Some text ->
  json_load text = Ok data ->
  first_with_id post_id (posts data) before post after ->
  json_load (json_dump data') = Ok data' ->
  disk_fault w = NoFault ->
  CommentsPopup._add_comment post_id comment_text w
    = (Ok tt,
       mkWorld (Some (json_dump data')) NoFault (clock w) (S (ticks w))
               (stdout w) (dialogs w ++ [showinfo "Success" "Comment added!"])).
Proof.
  intros user c data' Htext Hfile Hload Hfirst Hvalid Hfault.
  pose proof (add_comment_run w text data post_id comment_text) as Hrun.
  cbv zeta in Hrun. rewrite (find_post_found _ _ _ _ _ Hfirst) in Hrun.
  assert (Hdata : add_comment data post_id (current_user data) comment_text
                              (clock w (ticks w)) = data').
  { unfold add_comment. cbv zeta.
    rewrite (update_first_found _ _ _ _ _ _ Hfirst).
    subst data' c user. f_equal. f_equal. f_equal.
    destruct post as [i u n k img l lb [cs |] t]; reflexivity. }
  rewrite Hdata in Hrun. now apply Hrun.
Qed.

Lemma add_comment_handler_found_witness :
  let before := sample_document [sample_post 1 2 []] in
  let after :=
    sample_document
      [ Post.mk 1 1 "harini" "hello" None 2 (Some [])
          (Some [Comment.mk 5 "alice" "nice" "2024-01-01T00:00:00"])
          "2024-01-01T00:00:00" ] in
  @CommentsPopup._add_comment (sample_json2 before after) 1 "nice"
     (sample_world (Some "{before}") NoFault)
  = (Ok tt,
     mkWorld (Some "{after}") NoFault (fun _ => "2024-01-01T00:00:00") 1 []
             [showinfo "Success" "Comment added!"]).
Proof.
  apply (@add_comment_handler_found
           (sample_json2
              (sample_document [sample_post 1 2 []])
              (sample_document
                 [ Post.mk 1 1 "harini" "hello" None 2 (Some [])
                     (Some [Comment.mk 5 "alice" "nice" "2024-01-01T00:00:00"])
                     "2024-01-01T00:00:00" ]))
           (sample_world (Some "{before}") NoFault) "{before}"
           (sample_document [sample_post 1 2 []]) 1 "nice"
           [] (sample_post 1 2 []) []);
    [discriminate | reflexivity | reflexivity | | reflexivity | reflexivity].
  repeat split. constructor.
Defined.

(** X10.  [_add_comment] for an id no post has (the card is older than
    the file): the comment is dropped without a word.  The document is
    saved as it was loaded, the clock is not read, and the success box is
    shown all the same. *)
Theorem add_comment_handler_unknown_post {json : JsonLib} (w : World)
    (text : string) (data : Document) (post_id : Z) (comment_text : string) :
  comment_text <> "" ->
  data_file w = Some text ->
  json_load text = Ok data ->
  no_post_with_id post_id (posts data) ->
  json_load (json_dump data) = Ok data ->
  disk_fault w = NoFault ->
  CommentsPopup._add_comment post_id comment_text w
    = (Ok tt,
       mkWorld (Some (json_dump data)) NoFault (clock w) (ticks w)
               (stdout w) (dialogs w ++ [showinfo "Success" "Comment added!"])).
Proof.
  intros Htext Hfile Hload Hnone Hvalid Hfault.
  pose proof (add_comment_run w text data post_id comment_text) as Hrun.
  cbv zeta in Hrun. rewrite (find_post_absent _ _ Hnone) in Hrun.
  now apply Hrun.
Qed.

Lemma add_comment_handler_unknown_post_witness :
  @CommentsPopup._add_comment (sample_json seeded) 7 "nice"
     (sample_world (Some "{...}") NoFault)
  = (Ok tt,
     mkWorld (Some "{...}") NoFault (fun _ => "2024-01-01T00:00:00") 0 []
             [showinfo "Success" "Comment added!"]).
Proof.
  apply (@add_comment_handler_unknown_post (sample_json seeded)
           (sample_world (Some "{...}") NoFault) "{...}" seeded 7 "nice");
    [discriminate | reflexivity | reflexivity | | reflexivity | reflexivity].
  unfold seeded. simpl. repeat (constructor; [simpl; lia |]). constructor.
Defined.

(** X12.  A failed save does not stop the success message: when the file
    cannot be opened for writing, [_create_post] and [_add_comment] leave
    the file as it was, show the error of the write and then the success
    box, as if the post or comment had been stored. *)
Theorem save_failure_still_reports_success {json : JsonLib} (w : World)
    (text : string) (data : Document) (e : exn) (post_id : Z)
    (caption comment_text : string) :
  data_file w = Some text ->
  json_load text = Ok data ->
  disk_fault w = OpenFails e ->
  (caption <> "" ->
   AddPostPopup._create_post caption None w
     = (Ok tt,
        mkWorld (Some text) (OpenFails e) (clock w) (S (ticks w)) (stdout w)
                (dialogs w
                 ++ [showerror "Error" ("Failed to save data: " ++ str e);
                     showinfo "Success" "Post created successfully!"]))) /\
  (comment_text <> "" ->
   CommentsPopup._add_comment post_id comment_text w
     = (Ok tt,
        mkWorld (Some text) (OpenFails e) (clock w)
                (match find_post post_id (posts data) with
                 | Some _ => S (ticks w)
                 | None => ticks w
                 end)
                (stdout w)
                (dialogs w
                 ++ [showerror "Error" ("Failed to save data: " ++ str e);
                     showinfo "Success" "Comment added!"]))).
Proof.
  intros Hfile Hload Hfault.
  destruct w as [file fault clk n out dlg]. cbn in Hfile, Hfault. subst.
  split; intros Htext; apply String.eqb_neq in Htext.
  - unfold AddPostPopup._create_post. rewrite Htext.
    erewrite bind_run by (eapply load_data_parsed; [reflexivity | eassumption]).
    cbv zeta.
    erewrite bind_run by reflexivity.
    erewrite bind_run by apply save_data_run.
    erewrite bind_run by reflexivity.
    erewrite refresh_feed_parsed by (try reflexivity; eassumption).
    unfold file_after_save, dialogs_of_save.
    cbn [data_file disk_fault clock ticks stdout dialogs].
    now rewrite <- app_assoc.
  - unfold CommentsPopup._add_comment. rewrite Htext.
    erewrite bind_run by (eapply load_data_parsed; [reflexivity | eassumption]).
    cbv zeta.
    destruct (find_post post_id (posts data)).
    + erewrite bind_run by reflexivity.
      erewrite bind_run by apply save_data_run.
      erewrite bind_run by reflexivity.
      erewrite refresh_feed_parsed by (try reflexivity; eassumption).
      unfold file_after_save, dialogs_of_save.
      cbn [data_file disk_fault clock ticks stdout dialogs].
      now rewrite <- app_assoc.
    + erewrite bind_run by reflexivity.
      erewrite bind_run by apply save_data_run.
      erewrite bind_run by reflexivity.
      erewrite refresh_feed_parsed by (try reflexivity; eassumption).
      unfold file_after_save, dialogs_of_save.
      cbn [data_file disk_fault clock ticks stdout dialogs].
      now rewrite <- app_assoc.
Qed.

Lemma save_failure_still_reports_success_witness :
  @AddPostPopup._create_post (sample_json seeded) "hello" None
     (sample_world (Some "{...}") (OpenFails (Exception "Permission denied")))
  = (Ok tt,
     mkWorld (Some "{...}") (OpenFails (Exception "Permission denied"))
             (fun _ => "2024-01-01T00:00:00") 1 []
             [showerror "Error" "Failed to save data: Permission denied";
              showinfo "Success" "Post created successfully!"]).
Proof.
  destruct (@save_failure_still_reports_success (sample_json seeded)
              (sample_world (Some "{...}")
                 (OpenFails (Exception "Permission denied")))
              "{...}" seeded (Exception "Permission denied") 1 "hello" "nice"
              eq_refl eq_refl eq_refl) as [Hpost _].
  apply Hpost. discriminate.
Defined.

(** ** The numbers of the profile window *)

Lemma fold_left_add_acc (l : list Z) (a : Z) :
  fold_left Z.add l a = a + fold_left Z.add l 0.
Proof.
  revert a. induction l as [| x l IH]; intros a; simpl; [lia |].
  rewrite (IH (a + x)), (IH x). lia.
Qed.

Lemma py_sum_cons (x : Z) (l : list Z) : py_sum (x :: l) = x + py_sum l.
Proof. unfold py_sum. simpl. apply fold_left_add_acc. Qed.

Lemma py_sum_app (l1 l2 : list Z) : py_sum (l1 ++ l2) = py_sum l1 + py_sum l2.
Proof.
  induction l1 as [| x l1 IH]; simpl; [reflexivity |].
  rewrite !py_sum_cons, IH. lia.
Qed.

(** A change of posts that keeps the author and the likes keeps both
    numbers. *)
Lemma profile_numbers_kept (data : Document) (ps : list Post.t) :
  map Post.user_id ps = map Post.user_id (posts data) ->
  map Post.likes ps = map Post.likes (posts data) ->
  ProfilePopup.post_count (set_posts ps data) = ProfilePopup.post_count data /\
  ProfilePopup.total_likes (set_posts ps data) = ProfilePopup.total_likes data.
Proof.
  unfold ProfilePopup.post_count, ProfilePopup.total_likes,
         ProfilePopup.own_posts.
  cbn [posts current_user set_posts].
  generalize (User.user_id (current_user data)) as me.
  generalize (posts data) as qs. intros qs me. revert qs.
  induction ps as [| p ps IH]; intros [| q qs] Hu Hl; try discriminate.
  - split; reflexivity.
  - simpl in Hu, Hl. injection Hu as Hu Hus. injection Hl as Hl Hls.
    destruct (IH qs Hus Hls) as [IHc IHl]. simpl. rewrite Hu.
    destruct (Z.eqb (Post.user_id q) me); simpl.
    + rewrite !py_sum_cons. split; congruence.
    + split; assumption.
Qed.

(** X13.  A post created by the current user adds one to the post count
    of the profile and nothing to its total of likes; a comment changes
    neither number. *)
Theorem profile_after_create_post_and_comment (data : Document) :
  (forall caption image now,
     let data' := create_post data (current_user data) caption image now in
     ProfilePopup.post_count data' = S (ProfilePopup.post_count data) /\
     ProfilePopup.total_likes data' = ProfilePopup.total_likes data) /\
  (forall post_id user comment_text now,
     let data' := add_comment data post_id user comment_text now in
     ProfilePopup.post_count data' = ProfilePopup.post_count data /\
     ProfilePopup.total_likes data' = ProfilePopup.total_likes data).
Proof.
  split.
  - intros caption image now data'. subst data'.
    unfold ProfilePopup.post_count, ProfilePopup.total_likes,
           ProfilePopup.own_posts, create_post.
    cbn [posts current_user set_posts filter new_post Post.user_id].
    rewrite Z.eqb_refl. cbn [List.length map Post.likes].
    rewrite py_sum_cons. split; [reflexivity | simpl; lia].
  - intros post_id user comment_text now data'. subst data'.
    unfold add_comment. cbv zeta. apply profile_numbers_kept.
    + apply update_first_map. apply Forall_forall. intros q _.
      apply append_comment_likes.
    + apply update_first_map. apply Forall_forall. intros q _.
      apply append_comment_likes.
Qed.

Lemma own_posts_split (data : Document) (before : list Post.t)
    (post : Post.t) (after : list Post.t) :
  let me := User.user_id (current_user data) in
  let own := filter (fun p => Z.eqb (Post.user_id p) me) in
  ProfilePopup.total_likes (set_posts (before ++ post :: after) data)
    = py_sum (map Post.likes (own before))
      + (if Z.eqb (Post.user_id post) me then Post.likes post else 0)
      + py_sum (map Post.likes (own after)).
Proof.
  intros me own. unfold ProfilePopup.total_likes, ProfilePopup.own_posts.
  cbn [posts current_user set_posts]. fold me. fold own.
  unfold own at 1. rewrite filter_app. cbn [filter]. fold own.
  rewrite map_app, py_sum_app.
  destruct (Z.eqb (Post.user_id post) me); simpl.
  - rewrite py_sum_cons. lia.
  - lia.
Qed.

(** X14.  The total of likes of the profile follows the like button: a
    like on a post of the current user adds one, an unlike of a post
    with at least one like takes one away, and toggling a post of
    somebody else, or an id no post has, leaves the total as it was. *)
Theorem profile_total_likes_after_toggle (data : Document)
    (post_id user_id : Z) :
  let data' := toggle_like data post_id user_id in
  let me := User.user_id (current_user data) in
  (no_post_with_id post_id (posts data) ->
   ProfilePopup.total_likes data' = ProfilePopup.total_likes data) /\
  (forall before post after,
     first_with_id post_id (posts data) before post after ->
     (Post.user_id post <> me ->
      ProfilePopup.total_likes data' = ProfilePopup.total_likes data) /\
     (Post.user_id post = me ->
      ~ In user_id (Post.get_liked_by post) ->
      ProfilePopup.total_likes data' = ProfilePopup.total_likes data + 1) /\
     (Post.user_id post = me ->
      In user_id (Post.get_liked_by post) ->
      1 <= Post.likes post ->
      ProfilePopup.total_likes data' = ProfilePopup.total_likes data - 1)).
Proof.
  intros data' me. subst data'. split.
  - intros Hnone. unfold toggle_like.
    rewrite update_first_absent by assumption. now rewrite set_posts_same.
  - intros before post after Hfirst.
    assert (Hnew : ProfilePopup.total_likes (toggle_like data post_id user_id)
                   = py_sum (map Post.likes
                               (filter (fun p => Z.eqb (Post.user_id p) me) before))
                     + (if Z.eqb (Post.user_id post) me
                        then Post.likes (toggle_post user_id post) else 0)
                     + py_sum (map Post.likes
                                 (filter (fun p => Z.eqb (Post.user_id p) me) after))).
    { unfold toggle_like. rewrite (update_first_found _ _ _ _ _ _ Hfirst).
      rewrite own_posts_split. cbv zeta. fold me.
      now rewrite (proj1 (proj2 (toggle_post_same user_id post))). }
    assert (Hold : ProfilePopup.total_likes data
                   = py_sum (map Post.likes
                               (filter (fun p => Z.eqb (Post.user_id p) me) before))
                     + (if Z.eqb (Post.user_id post) me then Post.likes post else 0)
                     + py_sum (map Post.likes
                                 (filter (fun p => Z.eqb (Post.user_id p) me) after))).
    { rewrite <- (set_posts_same data) at 1.
      destruct Hfirst as (-> & _ & _). now rewrite own_posts_split. }
    rewrite Hnew, Hold. split; [| split].
    + intros Hother. apply Z.eqb_neq in Hother. now rewrite Hother.
    + intros Hmine Hout. apply Z.eqb_eq in Hmine. rewrite Hmine.
      rewrite (proj2 (toggle_post_absent user_id post Hout)). lia.
    + intros Hmine Hin Hlikes. apply Z.eqb_eq in Hmine. rewrite Hmine.
      rewrite (proj2 (toggle_post_present user_id post Hin)). lia.
Qed.

Lemma profile_total_likes_after_toggle_witness :
  ProfilePopup.total_likes seeded = 105 /\
  ProfilePopup.total_likes (toggle_like seeded 2 1) = 105 + 1 /\
  ProfilePopup.total_likes (toggle_like seeded 7 1) = 105.
Proof.
  destruct (profile_total_likes_after_toggle seeded 2 1) as [_ Hfound].
  destruct (profile_total_likes_after_toggle seeded 7 1) as [Hnone _].
  split; [reflexivity | split].
  - destruct (Hfound (firstn 1 (posts seeded))
                     (nth 1 (posts seeded) (sample_post 0 0 []))
                     (skipn 2 (posts seeded))) as (_ & Hlike & _).
    + repeat split. constructor; [simpl; lia | constructor].
    + apply Hlike; [reflexivity | simpl; tauto].
  - apply Hnone. unfold seeded. simpl.
    repeat (constructor; [simpl; lia |]). constructor.
Defined.

(** ** The order of the feed *)

Lemma string_leb_cases (a b : string) :
  String.leb a b = true <-> a = b \/ OrderedTypeEx.String_as_OT.lt a b.
Proof.
  unfold String.leb. rewrite <- OrderedTypeEx.String_as_OT.cmp_lt.
  unfold OrderedTypeEx.String_as_OT.cmp.
  destruct (String.compare a b) eqn:E; split; intros H;
    try discriminate; try reflexivity.
  - left. now apply String.compare_eq_iff.
  - now right.
  - destruct H as [-> | H]; [| discriminate].
    pose proof (proj2 (OrderedTypeEx.String_as_OT.cmp_eq b b) eq_refl) as He.
    unfold OrderedTypeEx.String_as_OT.cmp in He. congruence.
Qed.

Lemma string_leb_trans (a b c : string) :
  String.leb a b = true -> String.leb b c = true -> String.leb a c = true.
Proof.
  rewrite !string_leb_cases. intros [-> | Hab] [-> | Hbc]; auto.
  right. eapply OrderedTypeEx.String_as_OT.lt_trans; eassumption.
Qed.

Lemma string_ltb_leb (a b : string) :
  String.ltb a b = false <-> String.leb b a = true.
Proof.
  unfold String.ltb, String.leb. rewrite (String.compare_antisym b a).
  destruct (String.compare a b); simpl; split; congruence.
Qed.

Lemma insert_newest_first_perm (post : Post.t) (l : list Post.t) :
  Permutation (insert_newest_first post l) (post :: l).
Proof.
  induction l as [| q l IH]; simpl; [reflexivity |].
  destruct (String.ltb (Post.created_at post) (Post.created_at q)).
  - rewrite IH. apply perm_swap.
  - reflexivity.
Qed.

Lemma sorted_newest_first_perm (l : list Post.t) :
  Permutation (sorted_newest_first l) l.
Proof.
  induction l as [| p l IH]; simpl; [reflexivity |].
  rewrite insert_newest_first_perm. now constructor.
Qed.

Lemma insert_newest_first_sorted (post : Post.t) (l : list Post.t) :
  StronglySorted not_older l ->
  StronglySorted not_older (insert_newest_first post l).
Proof.
  induction 1 as [| q l Hl IH Hq]; simpl.
  - repeat constructor.
  - destruct (String.ltb (Post.created_at post) (Post.created_at q)) eqn:E.
    + constructor; [assumption |].
      rewrite insert_newest_first_perm. constructor; [| assumption].
      unfold not_older. unfold String.ltb in E. unfold String.leb.
      destruct (String.compare (Post.created_at post) (Post.created_at q));
        congruence.
    + apply string_ltb_leb in E.
      constructor; [now constructor |].
      constructor; [exact E |].
      eapply Forall_impl; [| exact Hq].
      intros r Hr. unfold not_older in *. eapply string_leb_trans; eassumption.
Qed.

Lemma insert_newest_first_filter (t : string) (post : Post.t) (l : list Post.t) :
  filter (fun p => String.eqb (Post.created_at p) t) (insert_newest_first post l)
    = filter (fun p => String.eqb (Post.created_at p) t) (post :: l).
Proof.
  induction l as [| q l IH]; [reflexivity |].
  cbn [insert_newest_first].
  destruct (String.ltb (Post.created_at post) (Post.created_at q)) eqn:E;
    [| reflexivity].
  cbn [filter] in *. rewrite IH.
  destruct (String.eqb_spec (Post.created_at post) t) as [Hp | Hp];
    [| reflexivity].
  destruct (String.eqb_spec (Post.created_at q) t) as [Hq | Hq];
    [| reflexivity].
  exfalso. rewrite Hp, Hq in E. unfold String.ltb in E.
  pose proof (proj2 (OrderedTypeEx.String_as_OT.cmp_eq t t) eq_refl) as He.
  unfold OrderedTypeEx.String_as_OT.cmp in He. rewrite He in E.
  discriminate.
Qed.

(** X15.  The feed shows every post of the document exactly once, newest
    first, and posts with the same time in the order they have in the
    document. *)
Theorem feed_sorted_stable (data : Document) :
  Permutation (feed data) (posts data) /\
  StronglySorted not_older (feed data) /\
  (forall t,
     filter (fun p => String.eqb (Post.created_at p) t) (feed data)
       = filter (fun p => String.eqb (Post.created_at p) t) (posts data)).
Proof.
  unfold feed. split; [apply sorted_newest_first_perm | split].
  - induction (posts data) as [| p l IH]; simpl; [constructor |].
    now apply insert_newest_first_sorted.
  - intros t. induction (posts data) as [| p l IH]; [reflexivity |].
    cbn [sorted_newest_first fold_right].
    rewrite insert_newest_first_filter. cbn [filter].
    unfold sorted_newest_first in IH. now rewrite IH.
Qed.

(** X16.  A post created at a time that no post of the document exceeds
    is the first card of the feed, and the cards after it are the feed
    as it was. *)
Theorem feed_new_post_first (data : Document) (user : User.t)
    (caption : string) (image : option string) (now : string) :
  Forall (fun p => String.leb (Post.created_at p) now = true) (posts data) ->
  feed (create_post data user caption image now)
    = new_post data user caption image now :: feed data.
Proof.
  intros Hall. unfold feed, create_post.
  cbn [posts set_posts sorted_newest_first fold_right].
  fold (sorted_newest_first (posts data)).
  assert (Hfeed : Forall (fun p => String.leb (Post.created_at p) now = true)
                         (sorted_newest_first (posts data))).
  { rewrite sorted_newest_first_perm. exact Hall. }
  destruct (sorted_newest_first (posts data)) as [| q rest]; [reflexivity |].
  cbn [insert_newest_first new_post Post.created_at].
  inversion Hfeed as [| q' rest' Hq Hrest]; subst.
  apply string_ltb_leb in Hq. now rewrite Hq.
Qed.

Lemma feed_new_post_first_witness :
  map Post.post_id
      (feed (create_post (sample_document [sample_post 1 2 []; sample_post 2 0 []])
                         alice "hi" None "2024-01-01T00:00:00"))
    = [3; 1; 2].
Proof.
  rewrite (feed_new_post_first
             (sample_document [sample_post 1 2 []; sample_post 2 0 []])
             alice "hi" None "2024-01-01T00:00:00").
  - reflexivity.
  - repeat (constructor; [reflexivity |]). constructor.
Defined.

Lemma insert_newest_first_Forall2 (R : Post.t -> Post.t -> Prop)
    (p p' : Post.t) (l l' : list Post.t) :
  (forall a b, R a b -> Post.created_at b = Post.created_at a) ->
  R p p' -> Forall2 R l l' ->
  Forall2 R (insert_newest_first p l) (insert_newest_first p' l').
Proof.
  intros Hkey Hp. induction 1 as [| q q' l l' Hq Hl IH]; simpl.
  - repeat constructor. assumption.
  - rewrite (Hkey _ _ Hp), (Hkey _ _ Hq).
    destruct (String.ltb (Post.created_at p) (Post.created_at q));
      repeat constructor; assumption.
Qed.

Lemma sorted_newest_first_Forall2 (R : Post.t -> Post.t -> Prop)
    (l l' : list Post.t) :
  (forall a b, R a b -> Post.created_at b = Post.created_at a) ->
  Forall2 R l l' ->
  Forall2 R (sorted_newest_first l) (sorted_newest_first l').
Proof.
  intros Hkey. induction 1 as [| q q' l l' Hq Hl IH]; simpl.
  - constructor.
  - now apply insert_newest_first_Forall2.
Qed.

Lemma same_but_likes_refl (post : Post.t) : same_but_likes post post.
Proof. now repeat split. Qed.

(** X17.  A like and a comment leave the feed in place: the cards stand
    for the same posts in the same order, card by card equal but for the
    like state (after [toggle_like]) or the comments (after
    [add_comment]). *)
Theorem feed_kept_by_like_and_comment (data : Document) (post_id : Z) :
  (forall user_id,
     Forall2 same_but_likes (feed data)
             (feed (toggle_like data post_id user_id))) /\
  (forall user comment_text now,
     Forall2 same_but_comments (feed data)
             (feed (add_comment data post_id user comment_text now))).
Proof.
  split.
  - intros user_id. unfold feed, toggle_like. cbn [posts set_posts].
    apply sorted_newest_first_Forall2.
    + intros a b H. apply H.
    + apply update_first_Forall2;
        [apply same_but_likes_refl | apply toggle_post_same].
  - intros user comment_text now. unfold feed, add_comment.
    cbn [posts set_posts].
    apply sorted_newest_first_Forall2.
    + intros a b H. apply H.
    + apply update_first_Forall2;
        [apply same_but_comments_refl | intros a; apply append_comment_likes].
Qed.

(** ** The outline of a button *)

(** X18.  [create_rounded_rect] hands [create_polygon] twelve points as
    24 coordinates, and when the radius is not negative and fits into the
    width and the height of the rectangle, every point lies inside the
    rectangle [x1..x2] by [y1..y2]. *)
Theorem rounded_rect_inside (x1 y1 x2 y2 radius : Z) :
  0 <= radius -> radius <= x2 - x1 -> radius <= y2 - y1 ->
  RoundedButton.create_rounded_rect x1 y1 x2 y2 radius
    = flat_map (fun xy => [fst xy; snd xy])
               (RoundedButton.rounded_rect_points x1 y1 x2 y2 radius) /\
  List.length (RoundedButton.create_rounded_rect x1 y1 x2 y2 radius) = 24%nat /\
  Forall (fun xy => x1 <= fst xy <= x2 /\ y1 <= snd xy <= y2)
         (RoundedButton.rounded_rect_points x1 y1 x2 y2 radius).
Proof.
  intros Hr Hx Hy. split; [reflexivity | split; [reflexivity |]].
  unfold RoundedButton.rounded_rect_points.
  repeat (constructor; [simpl; lia |]). constructor.
Qed.

(** The outline of the default button, 120 by 35, stays inside the
    margin of 5 of its canvas. *)
Lemma rounded_rect_inside_witness :
  RoundedButton.outline 120 35
    = flat_map (fun xy => [fst xy; snd xy])
               (RoundedButton.rounded_rect_points 5 5 115 30 15) /\
  List.length (RoundedButton.outline 120 35) = 24%nat /\
  Forall (fun xy => 5 <= fst xy <= 115 /\ 5 <= snd xy <= 30)
         (RoundedButton.rounded_rect_points 5 5 115 30 15).
Proof. apply (rounded_rect_inside 5 5 115 30 15); lia. Defined.

(** ** Documents made by the program, continued *)

Lemma update_first_ids (post_id : Z) (f : Post.t -> Post.t) (ps : list Post.t) :
  (forall q, Post.post_id (f q) = Post.post_id q) ->
  map Post.post_id (update_first post_id f ps) = map Post.post_id ps.
Proof.
  intros Hf. apply update_first_map. apply Forall_forall. intros q _. apply Hf.
Qed.

Lemma append_comment_id (c : Comment.t) (post : Post.t) :
  Post.post_id (append_comment c post) = Post.post_id post.
Proof. apply append_comment_likes. Qed.

Lemma update_first_length (post_id : Z) (f : Post.t -> Post.t)
    (ps : list Post.t) :
  List.length (update_first post_id f ps) = List.length ps.
Proof.
  induction ps as [| q ps IH]; simpl; [reflexivity |].
  destruct (Z.eqb (Post.post_id q) post_id); simpl; congruence.
Qed.

Lemma own_posts_all (data : Document) :
  Forall (fun p => Post.user_id p = User.user_id (current_user data))
         (posts data) ->
  ProfilePopup.post_count data = List.length (posts data).
Proof.
  unfold ProfilePopup.post_count, ProfilePopup.own_posts.
  induction 1 as [| p ps Hp _ IH]; simpl; [reflexivity |].
  apply Z.eqb_eq in Hp. rewrite Hp. simpl. now rewrite IH.
Qed.

(** What stays as seeded, whatever the handlers do. *)
Lemma reachable_frame (data : Document) :
  reachable data ->
  User.user_id (current_user data) = 1 /\
  User.username (current_user data) = "harini" /\
  map User.user_id (users data) = [1] /\
  notifications data = [].
Proof.
  induction 1 as [t1 t2 t3 t4 t5 t6 t7 t8
                 | data post_id _ IH
                 | data caption image now _ IH
                 | data post_id comment_text now _ IH];
    [now repeat split | exact IH | exact IH | exact IH].
Qed.

Lemma reachable_posts (data : Document) :
  reachable data ->
  NoDup (post_ids data) /\
  Forall (fun p => Post.user_id p = 1 /\ Post.username p = "harini")
         (posts data) /\
  (3 <= List.length (posts data))%nat.
Proof.
  induction 1 as [t1 t2 t3 t4 t5 t6 t7 t8
                 | data post_id Hr (Hnd & Hall & Hlen)
                 | data caption image now Hr (Hnd & Hall & Hlen)
                 | data post_id comment_text now Hr (Hnd & Hall & Hlen)].
  - split; [| split].
    + unfold post_ids. simpl.
      repeat (constructor; [simpl; intuition lia |]). constructor.
    + repeat (constructor; [now split |]). constructor.
    + simpl. lia.
  - unfold post_ids, toggle_like in *. cbn [posts set_posts].
    rewrite update_first_ids by apply toggle_post_id.
    rewrite update_first_length. split; [assumption | split; [| assumption]].
    apply update_first_Forall; [| assumption].
    intros q [H1 H2].
    destruct (toggle_post_same (User.user_id (current_user data)) q)
      as (_ & Hu & Hn & _).
    split; congruence.
  - destruct (reachable_frame data Hr) as (Hid & Hname & _).
    split; [| split].
    + rewrite create_post_ids.
      constructor; [apply fresh_id_not_in | assumption].
    + unfold create_post. cbn [posts set_posts].
      constructor; [now split | assumption].
    + unfold create_post. cbn [posts set_posts List.length]. lia.
  - unfold post_ids, add_comment in *. cbn [posts set_posts].
    rewrite update_first_ids by apply append_comment_id.
    rewrite update_first_length. split; [assumption | split; [| assumption]].
    apply update_first_Forall; [| assumption].
    intros q [H1 H2].
    destruct (append_comment_likes
                (Comment.mk (User.user_id (current_user data))
                            (User.username (current_user data)) comment_text now)
                q) as (_ & Hu & Hn & _).
    split; congruence.
Qed.

(** X21.  In every document the handlers produce from the seeded one the
    post ids are unique, the current user is still user 1 "harini", the
    user list and the notifications are as seeded, every post is a post
    of the current user, and no post has been lost: the profile counts
    all posts, at least the three seeded ones. *)
Theorem reachable_shape (data : Document) :
  reachable data ->
  NoDup (post_ids data) /\
  User.user_id (current_user data) = 1 /\
  User.username (current_user data) = "harini" /\
  map User.user_id (users data) = [1] /\
  notifications data = [] /\
  Forall (fun p => Post.user_id p = 1 /\ Post.username p = "harini") (posts data) /\
  ProfilePopup.post_count data = List.length (posts data) /\
  (3 <= List.length (posts data))%nat.
Proof.
  intros Hr.
  destruct (reachable_frame data Hr) as (Hid & Hname & Hus & Hno).
  destruct (reachable_posts data Hr) as (Hnd & Hall & Hlen).
  repeat split; try assumption.
  apply own_posts_all. rewrite Hid.
  eapply Forall_impl; [| exact Hall]. intros p [Hp _]. exact Hp.
Qed.

Lemma reachable_shape_witness :
  let data :=
    add_comment
      (create_post (toggle_like seeded 2 1) (current_user seeded) "hi" None "t9")
      4 (current_user seeded) "first" "t10" in
  post_ids data = [4; 1; 2; 3] /\
  NoDup (post_ids data) /\
  ProfilePopup.post_count data = 4%nat.
Proof.
  intros data.
  assert (Hr : reachable data).
  { apply (reach_add_comment
             (create_post (toggle_like seeded 2 1) (current_user seeded)
                          "hi" None "t9") 4 "first" "t10").
    apply (reach_create_post (toggle_like seeded 2 1) "hi" None "t9").
    apply (reach_toggle_like seeded 2).
    apply reach_default. }
  destruct (reachable_shape data Hr) as (Hnd & _ & _ & _ & _ & _ & Hcount & _).
  split; [reflexivity | split; [exact Hnd | exact Hcount]].
Defined.

(** X22.  In every document the handlers produce from the seeded one the
    only liker ever recorded is the current user, at most once per post,
    and no like count is below the number of likers (so none is
    negative). *)
Theorem reachable_likers (data : Document) :
  reachable data ->
  Forall (fun p =>
            (Post.liked_by p = Some [] \/
             Post.liked_by p = Some [User.user_id (current_user data)]) /\
            Z.of_nat (List.length (Post.get_liked_by p)) <= Post.likes p /\
            0 <= Post.likes p)
         (posts data).
Proof.
  intros Hr. apply reachable_tidy in Hr.
  eapply Forall_impl; [| exact Hr].
  intros p [Hl Hs]. unfold surplus in Hs. split; [exact Hl | lia].
Qed.

Lemma reachable_likers_witness :
  Forall (fun p =>
            (Post.liked_by p = Some [] \/ Post.liked_by p = Some [1]) /\
            Z.of_nat (List.length (Post.get_liked_by p)) <= Post.likes p /\
            0 <= Post.likes p)
         (posts (toggle_like seeded 2 1)).
Proof.
  apply (reachable_likers (toggle_like seeded 2 1)).
  apply (reach_toggle_like seeded 2). apply reach_default.
Defined.

Lemma reachable_surplus_witness :
  exists n,
    map surplus (posts (create_post (toggle_like seeded 2 1)
                                    (current_user seeded) "hi" None "t9"))
      = repeat 0 n ++ [42; 28; 35].
Proof.
  apply (reachable_surplus
           (create_post (toggle_like seeded 2 1) (current_user seeded)
                        "hi" None "t9")).
  apply (reach_create_post (toggle_like seeded 2 1) "hi" None "t9").
  apply (reach_toggle_like seeded 2). apply reach_default.
Defined.

Lemma reachable_toggle_like_twice_witness :
  toggle_like (toggle_like (toggle_like seeded 2 1) 2 1) 2 1
    = toggle_like seeded 2 1.
Proof.
  apply (reachable_toggle_like_twice (toggle_like seeded 2 1) 2).
  apply (reach_toggle_like seeded 2). apply reach_default.
Defined.

(** ** How the mutations compose *)

Lemma update_first_comm (p1 p2 : Z) (f g : Post.t -> Post.t) (ps : list Post.t) :
  (forall q, Post.post_id (f q) = Post.post_id q) ->
  (forall q, Post.post_id (g q) = Post.post_id q) ->
  p1 <> p2 \/ (forall q, f (g q) = g (f q)) ->
  update_first p1 f (update_first p2 g ps)
    = update_first p2 g (update_first p1 f ps).
Proof.
  intros Hf Hg Hcomm. induction ps as [| q ps IH]; simpl; [reflexivity |].
  destruct (Z.eqb_spec (Post.post_id q) p1) as [E1 | E1];
    destruct (Z.eqb_spec (Post.post_id q) p2) as [E2 | E2]; simpl;
    rewrite ?Hf, ?Hg.
  - destruct Hcomm as [Hne | Hfg]; [congruence |].
    subst p1. rewrite E2, !Z.eqb_refl. now rewrite Hfg.
  - apply Z.eqb_eq in E1. apply Z.eqb_neq in E2. now rewrite E1, E2.
  - apply Z.eqb_neq in E1. apply Z.eqb_eq in E2. now rewrite E1, E2.
  - apply Z.eqb_neq in E1. apply Z.eqb_neq in E2. now rewrite E1, E2, IH.
Qed.

Lemma toggle_append_comm (user_id : Z) (c : Comment.t) (post : Post.t) :
  toggle_post user_id (append_comment c post)
    = append_comment c (toggle_post user_id post).
Proof.
  unfold toggle_post.
  replace (Post.get_liked_by (append_comment c post))
    with (Post.get_liked_by post)
    by (destruct post as [i u n k img l lb [cs |] t]; reflexivity).
  destruct (py_in user_id (Post.get_liked_by post));
    destruct post as [i u n k img l [lb |] [cs |] t]; reflexivity.
Qed.

(** X23.  Liking and commenting do not get in each other's way: a like
    toggled after a comment gives the document of the comment added
    after the like, also on the same post. *)
Theorem toggle_like_add_comment_commute (data : Document) (liked commented : Z)
    (user_id : Z) (user : User.t) (comment_text now : string) :
  toggle_like (add_comment data commented user comment_text now) liked user_id
    = add_comment (toggle_like data liked user_id) commented user comment_text now.
Proof.
  unfold toggle_like, add_comment, set_posts.
  cbn [posts current_user users notifications].
  f_equal. apply update_first_comm.
  - apply toggle_post_id.
  - intros q. apply append_comment_id.
  - right. intros q. apply toggle_append_comm.
Qed.

(** X24.  Likes on two different posts can be toggled in either order. *)
Theorem toggle_like_commute (data : Document) (p1 p2 u1 u2 : Z) :
  p1 <> p2 ->
  toggle_like (toggle_like data p1 u1) p2 u2
    = toggle_like (toggle_like data p2 u2) p1 u1.
Proof.
  intros Hne. unfold toggle_like, set_posts.
  cbn [posts current_user users notifications].
  f_equal. apply update_first_comm;
    [apply toggle_post_id | apply toggle_post_id | left; congruence].
Qed.

Lemma toggle_like_commute_witness :
  toggle_like (toggle_like seeded 1 1) 3 1
    = toggle_like (toggle_like seeded 3 1) 1 1.
Proof. apply (toggle_like_commute seeded 1 3 1 1). discriminate. Defined.

Lemma fresh_id_kept (data : Document) (ps : list Post.t) :
  map Post.post_id ps = map Post.post_id (posts data) ->
  fresh_id (set_posts ps data) = fresh_id data.
Proof. unfold fresh_id. cbn [posts set_posts]. now intros ->. Qed.

(** X25.  A new post does not disturb a like or a comment on another
    id: for every id but the one the new post gets, creating the post
    and then toggling the like (or adding the comment) gives the same
    document as doing it first and creating the post afterwards, with
    the same id for the new post. *)
Theorem create_post_commutes (data : Document) (author : User.t)
    (caption : string) (image : option string) (created : string)
    (post_id : Z) :
  post_id <> fresh_id data ->
  (forall user_id,
     toggle_like (create_post data author caption image created) post_id user_id
       = create_post (toggle_like data post_id user_id)
                     author caption image created) /\
  (forall user comment_text now,
     add_comment (create_post data author caption image created)
                 post_id user comment_text now
       = create_post (add_comment data post_id user comment_text now)
                     author caption image created).
Proof.
  intros Hne.
  assert (Hhead : Z.eqb (fresh_id data) post_id = false).
  { apply Z.eqb_neq. congruence. }
  split.
  - intros user_id. unfold toggle_like at 1. unfold create_post, new_post.
    cbn [posts set_posts current_user users notifications update_first
         Post.post_id].
    fold (fresh_id data). rewrite Hhead.
    fold (fresh_id (toggle_like data post_id user_id)).
    unfold toggle_like at 1. rewrite fresh_id_kept
      by (apply update_first_ids; apply toggle_post_id).
    reflexivity.
  - intros user comment_text now. unfold add_comment at 1.
    unfold create_post, new_post.
    cbn [posts set_posts current_user users notifications update_first
         Post.post_id].
    fold (fresh_id data). rewrite Hhead.
    fold (fresh_id (add_comment data post_id user comment_text now)).
    unfold add_comment at 1. cbv zeta. rewrite fresh_id_kept
      by (apply update_first_ids; intros q; apply append_comment_id).
    reflexivity.
Qed.

Lemma create_post_commutes_witness :
  toggle_like (create_post seeded alice "hi" None "t9") 2 1
    = create_post (toggle_like seeded 2 1) alice "hi" None "t9".
Proof.
  destruct (create_post_commutes seeded alice "hi" None "t9" 2) as [H _].
  - discriminate.
  - apply H.
Defined.

(** ** A write that fails part-way *)

(** X26.  A save that fails while writing can cost the whole document:
    when the JSON library rejects the part of the text that reached the
    file, the next [load_data] returns the seeded document, neither the
    document just saved nor the one the file held before, and its own
    write meets the same fault. *)
Theorem partial_write_loses_document {json : JsonLib} (w : World)
    (data : Document) (written : nat) (e e' : exn) :
  disk_fault w = WriteFails written e ->
  json_load (prefix written (json_dump data)) = Raise e' ->
  let r := (save_data data ;;; load_data) w in
  result r = Ok (default_data_at w) /\
  data_file (world_after r)
    = Some (prefix written (json_dump (default_data_at w))) /\
  stdout (world_after r)
    = stdout w ++ [("Error loading data: " ++ str e')%string] /\
  dialogs (world_after r)
    = dialogs w
      ++ [showerror "Error" ("Failed to save data: " ++ str e);
          showerror "Error" ("Failed to save data: " ++ str e)].
Proof.
  intros Hfault Hload r. subst r.
  rewrite (bind_run _ _ _ _ _ (save_data_run data w)).
  unfold file_after_save, dialogs_of_save. rewrite Hfault.
  erewrite load_data_rejected by (try reflexivity; exact Hload).
  unfold result, world_after, file_after_save, dialogs_of_save, default_data_at.
  cbn [fst snd data_file disk_fault clock ticks stdout dialogs].
  rewrite <- app_assoc. repeat split.
Qed.

Lemma partial_write_loses_document_witness :
  let w := sample_world (Some "{...}")
             (WriteFails 2 (Exception "[Errno 28] No space left on device")) in
  let r := (@save_data (sample_json seeded) (toggle_like seeded 1 1) ;;;
            @load_data (sample_json seeded)) w in
  result r = Ok (default_data_at w) /\
  data_file (world_after r) = Some "{.".
Proof.
  destruct (@partial_write_loses_document (sample_json seeded)
              (sample_world (Some "{...}")
                 (WriteFails 2 (Exception "[Errno 28] No space left on device")))
              (toggle_like seeded 1 1) 2
              (Exception "[Errno 28] No space left on device")
              (Exception "Expecting value: line 1 column 1 (char 0)")
              eq_refl eq_refl) as (Hres & Hfile & _).
  split; [exact Hres | exact Hfile].
Defined.
